(** * Inventory store ([inventory_system.py]): embedding and properties

    The module keeps one process-wide dictionary [stock_data] from item
    names to quantities ([int] or [float]) and offers [add_item],
    [remove_item], [get_qty], [load_data], [save_data], [print_data] and
    [check_low_items] over it.

    The embedding follows the source function by function:
    - quantities are Python numbers: [bool], unbounded [int] (as [Z]) and
      binary64 [float] (as [spec_float], with the arithmetic of
      [SpecFloat] at precision 53 and maximal exponent 1024);
    - the dictionary is an association list in insertion order;
    - each function is a computation in a state-and-exception monad over
      the [world]: the dictionary, the data files and the logging stream. *)

From Stdlib Require Import ZArith List String Bool Lia.
From Stdlib Require Import SpecFloat.
Import ListNotations.

Set Warnings "-register-all".

Local Open Scope string_scope.
Local Open Scope Z_scope.

(** ** Python numbers *)

(** A value [v] with [isinstance(v, (int, float))]; [bool] is a subclass
    of [int]. *)
Inductive num : Type :=
| NBool (b : bool)
| NInt (z : Z)
| NFloat (f : spec_float).

(** The operand an arithmetic operation or a comparison sees: the integer
    value of a [bool] or an [int], or the float. *)
Inductive operand : Type :=
| OInt (z : Z)
| OFloat (f : spec_float).

Module PyNum.

Definition prec : Z := 53.
Definition emax : Z := 1024.

Definition operand_of (n : num) : operand :=
  match n with
  | NBool b => OInt (Z.b2z b)
  | NInt z => OInt z
  | NFloat f => OFloat f
  end.

(** [float(z)]: rounding to nearest, ties to even; [None] stands for
    [OverflowError: int too large to convert to float]. *)
Definition int_to_float (z : Z) : option spec_float :=
  match binary_normalize prec emax z 0 false with
  | S754_infinity _ => None
  | f => Some f
  end.

Definition signed (s : bool) (m : positive) : Z := cond_Zopp s (Zpos m).

(** Python compares an [int] with a [float] by value, without rounding
    the [int]. *)
Definition compare_int_float (z : Z) (f : spec_float) : option comparison :=
  match f with
  | S754_nan => None
  | S754_infinity s => Some (if s then Gt else Lt)
  | S754_zero _ => Some (z ?= 0)
  | S754_finite s m e =>
      Some (if e <? 0
            then Z.shiftl z (- e) ?= signed s m
            else z ?= Z.shiftl (signed s m) e)
  end.

(** [None]: the operands are unordered (one of them is NaN). *)
Definition compare (a b : num) : option comparison :=
  match operand_of a, operand_of b with
  | OInt x, OInt y => Some (x ?= y)
  | OInt x, OFloat g => compare_int_float x g
  | OFloat f, OInt y => option_map CompOpp (compare_int_float y f)
  | OFloat f, OFloat g => SFcompare f g
  end.

(** [a < b] *)
Definition ltb (a b : num) : bool :=
  match compare a b with
  | Some Lt => true
  | _ => false
  end.

(** [a <= b] *)
Definition leb (a b : num) : bool :=
  match compare a b with
  | Some (Lt | Eq) => true
  | _ => false
  end.

(** [a == b] *)
Definition eqb (a b : num) : bool :=
  match compare a b with
  | Some Eq => true
  | _ => false
  end.

(** The float an operand becomes next to a float operand. *)
Definition to_float (o : operand) : option spec_float :=
  match o with
  | OInt z => int_to_float z
  | OFloat f => Some f
  end.

Definition arith (fz : Z -> Z -> Z)
           (ff : spec_float -> spec_float -> spec_float)
           (a b : num) : option num :=
  match operand_of a, operand_of b with
  | OInt x, OInt y => Some (NInt (fz x y))
  | x, y =>
      match to_float x, to_float y with
      | Some f, Some g => Some (NFloat (ff f g))
      | _, _ => None
      end
  end.

(** [a + b] and [a - b]; [None] stands for the [OverflowError] of an
    [int] operand too large for a [float]. *)
Definition add : num -> num -> option num := arith Z.add (SFadd prec emax).
Definition sub : num -> num -> option num := arith Z.sub (SFsub prec emax).

Definition zero : num := NInt 0.

(** Neither infinite nor NaN. *)
Definition finite (n : num) : bool :=
  match n with
  | NFloat (S754_infinity _) | NFloat S754_nan => false
  | _ => true
  end.

Definition same_kind (a b : num) : bool :=
  match operand_of a, operand_of b with
  | OInt _, OInt _ | OFloat _, OFloat _ => true
  | _, _ => false
  end.

End PyNum.

(** ** Python values that reach the module *)

(** A dictionary key as the loop of [load_data] sees it: a [str], or any
    other object, of which only the text [str(k)] matters. *)
Inductive pykey : Type :=
| KStr (s : string)
| KOther (text : string).

(** Arguments of the public functions and values decoded by
    [json.load]. *)
Inductive pyval : Type :=
| VNone
| VNum (n : num)
| VStr (s : string)
| VList (l : list pyval)
| VDict (d : list (pykey * pyval)).

(** [isinstance(v, (int, float))] *)
Definition as_num (v : pyval) : option num :=
  match v with
  | VNum n => Some n
  | _ => None
  end.

(** [isinstance(item, str) and item] *)
Definition as_name (v : pyval) : option string :=
  match v with
  | VStr EmptyString => None
  | VStr s => Some s
  | _ => None
  end.

(** [k if isinstance(k, str) else str(k)] *)
Definition key_text (k : pykey) : string :=
  match k with
  | KStr s => s
  | KOther text => text
  end.

(** ** Dictionaries in insertion order *)

Module Dict.
Section Dict.

Context {V : Type}.

Definition t : Type := list (string * V).

Definition keys (d : t) : list string := map fst d.

(** [d.get(k)] *)
Fixpoint get (k : string) (d : t) : option V :=
  match d with
  | [] => None
  | (k', v) :: d' => if String.eqb k k' then Some v else get k d'
  end.

(** [k in d] *)
Definition mem (k : string) (d : t) : bool :=
  match get k d with
  | Some _ => true
  | None => false
  end.

(** [d[k] = v]: a present key keeps its place, a new key goes last. *)
Fixpoint set (k : string) (v : V) (d : t) : t :=
  match d with
  | [] => [(k, v)]
  | (k', v') :: d' =>
      if String.eqb k k' then (k, v) :: d' else (k', v') :: set k v d'
  end.

(** [del d[k]] *)
Definition del (k : string) (d : t) : t :=
  filter (fun e => negb (String.eqb k (fst e))) d.

(** Keys are unique. *)
Definition wf (d : t) : Prop := NoDup (keys d).

End Dict.
Arguments t : clear implicits.
End Dict.

(** ** The world: inventory, data files, logging stream *)

Inductive exn : Type :=
| TypeError
| ValueError
| KeyError
| OverflowError
| OtherError (name : string).

(** What [open(file, "r")] followed by [json.load] meets at a path. The
    text layer of the [json] module is not part of this repository: a
    file that decodes is held as the value [json.load] returns for it. *)
Inductive node : Type :=
| Absent                    (* [FileNotFoundError] *)
| Unreadable (e : exn)      (* reading raises something else, which
                               [load_data] does not catch *)
| Garbage                   (* [json.JSONDecodeError] *)
| Document (v : pyval).

(** Records of the logging stream, by call site; the formatted text and
    the timestamp are left out. *)
Inductive log_record : Type :=
| LogAdded (qty : num) (item : string)
| LogNotDict
| LogSkipped (k : string) (v : pyval)
| LogNotFound (file : string)
| LogDecodeError (file : string)
| LogSaved (file : string)
| LogWriteError (file : string)
| LogReportHeader
| LogReportEmpty
| LogReportLine (name : string) (qty : num).

Record world : Type := mkWorld {
  stock_data : Dict.t num;
  files : string -> node;
  (** paths at which [open(file, "w")] raises [OSError] *)
  write_denied : string -> bool;
  logging : list log_record
}.

Definition with_stock (d : Dict.t num) (w : world) : world :=
  mkWorld d (files w) (write_denied w) (logging w).

Definition with_file (file : string) (n : node) (w : world) : world :=
  mkWorld (stock_data w)
          (fun p => if String.eqb p file then n else files w p)
          (write_denied w) (logging w).

Definition with_log (r : log_record) (w : world) : world :=
  mkWorld (stock_data w) (files w) (write_denied w) (logging w ++ [r]).

(** ** State and exceptions *)

Inductive outcome (A : Type) : Type :=
| Return (a : A)
| Raise (e : exn).
Arguments Return {A} a.
Arguments Raise {A} e.

Definition M (A : Type) : Type := world -> outcome A * world.

Definition ret {A} (a : A) : M A := fun w => (Return a, w).

Definition raise {A} (e : exn) : M A := fun w => (Raise e, w).

Definition bind {A B} (m : M A) (k : A -> M B) : M B :=
  fun w =>
    match m w with
    | (Return a, w') => k a w'
    | (Raise e, w') => (Raise e, w')
    end.

Notation "x <- m ;; k" := (bind m (fun x => k))
  (at level 61, m at next level, right associativity).
Notation "m ;;; k" := (bind m (fun _ => k))
  (at level 61, right associativity).

Definition get_stock : M (Dict.t num) := fun w => (Return (stock_data w), w).

Definition put_stock (d : Dict.t num) : M unit :=
  fun w => (Return tt, with_stock d w).

Definition log (r : log_record) : M unit :=
  fun w => (Return tt, with_log r w).

(** An arithmetic result, or the [OverflowError] of the operation. *)
Definition arith_result (r : option num) : M num :=
  match r with
  | Some n => ret n
  | None => raise OverflowError
  end.

(** The world a computation leaves and what it returns or raises. *)
Definition exec {A} (m : M A) (w : world) : world := snd (m w).
Definition eval {A} (m : M A) (w : world) : outcome A := fst (m w).

(** ** Dictionary statements on [stock_data] *)

(** [stock_data.get(name, 0)] *)
Definition get_or_zero (name : string) : M num :=
  d <- get_stock ;;
  ret match Dict.get name d with
      | Some v => v
      | None => PyNum.zero
      end.

(** [stock_data[name]] *)
Definition getitem (name : string) : M num :=
  d <- get_stock ;;
  match Dict.get name d with
  | Some v => ret v
  | None => raise KeyError
  end.

(** [stock_data[name] = v] *)
Definition setitem (name : string) (v : num) : M unit :=
  d <- get_stock ;;
  put_stock (Dict.set name v d).

(** [del stock_data[name]] *)
Definition delitem (name : string) : M unit :=
  d <- get_stock ;;
  if Dict.mem name d then put_stock (Dict.del name d) else raise KeyError.

(** [name in stock_data] *)
Definition contains (name : string) : M bool :=
  d <- get_stock ;;
  ret (Dict.mem name d).

(** ** The functions of the module *)

(** [add_item(item, qty, logs)]. The list [logs] is the caller's: the
    function returns it as it leaves it. *)
Definition add_item (item qty : pyval) (logs : option (list log_record))
  : M (option (list log_record)) :=
  match as_name item with
  | None => raise TypeError
  | Some name =>
      match as_num qty with
      | None => raise TypeError
      | Some q =>
          if PyNum.ltb q PyNum.zero then raise ValueError
          else
            current <- get_or_zero name ;;
            total <- arith_result (PyNum.add current q) ;;
            setitem name total ;;;
            match logs with
            | None => log (LogAdded q name) ;;; ret None
            | Some l => ret (Some (l ++ [LogAdded q name])%list)
            end
      end
  end.

(** [remove_item(item, qty)] *)
Definition remove_item (item qty : pyval) : M unit :=
  match as_name item with
  | None => raise TypeError
  | Some name =>
      match as_num qty with
      | None => raise TypeError
      | Some q =>
          if PyNum.leb q PyNum.zero then raise ValueError
          else
            present <- contains name ;;
            if negb present then raise KeyError
            else
              current <- getitem name ;;
              if PyNum.ltb current q then raise ValueError
              else
                old <- getitem name ;;
                rest <- arith_result (PyNum.sub old q) ;;
                setitem name rest ;;;
                left <- getitem name ;;
                if PyNum.leb left PyNum.zero then delitem name else ret tt
      end
  end.

(** [get_qty(item)] *)
Definition get_qty (item : pyval) : M num :=
  match as_name item with
  | None => raise TypeError
  | Some name => get_or_zero name
  end.

(** The loop of [load_data] over [data.items()]. *)
Fixpoint load_entries (data : list (pykey * pyval)) : M unit :=
  match data with
  | [] => ret tt
  | (k, v) :: data' =>
      let k := key_text k in
      match as_num v with
      | None => log (LogSkipped k v)
      | Some n => setitem k n
      end ;;;
      load_entries data'
  end.

(** [load_data(file)] *)
Definition load_data (file : string) : M unit :=
  fun w =>
    match files w file with
    | Absent => log (LogNotFound file) w
    | Unreadable e => raise e w
    | Garbage => log (LogDecodeError file) w
    | Document (VDict data) => (put_stock [] ;;; load_entries data) w
    | Document _ => log LogNotDict w
    end.

(** What [json.dump] writes for the inventory, as [json.load] gives it
    back. *)
Definition dumped (d : Dict.t num) : pyval :=
  VDict (map (fun e => (KStr (fst e), VNum (snd e))) d).

(** [save_data(file)] *)
Definition save_data (file : string) : M unit :=
  fun w =>
    if write_denied w file then log (LogWriteError file) w
    else log (LogSaved file) (with_file file (Document (dumped (stock_data w))) w).

(** [print_data()] *)
Definition print_data : M unit :=
  log LogReportHeader ;;;
  d <- get_stock ;;
  match d with
  | [] => log LogReportEmpty
  | _ => ret tt
  end ;;;
  fold_right (fun e k => log (LogReportLine (fst e) (snd e)) ;;; k) (ret tt) d.

(** [check_low_items(threshold)] *)
Definition check_low_items (threshold : pyval) : M (list string) :=
  match as_num threshold with
  | None => raise TypeError
  | Some t =>
      d <- get_stock ;;
      ret (map fst (filter (fun e => PyNum.ltb (snd e) t) d))
  end.

(** Default arguments. *)
Definition default_file : string := "inventory.json".
Definition default_threshold : pyval := VNum (NInt 5).

(** ** A first run: the scenario of [main] *)

Definition world0 : world :=
  mkWorld [] (fun _ => Absent) (fun _ => false) [].

Definition run {A} (m : M A) : outcome A := eval m world0.

Definition demo : M (num * num * list string) :=
  add_item (VStr "apple") (VNum (NInt 10)) None ;;;
  add_item (VStr "banana") (VNum (NInt 2)) None ;;;
  remove_item (VStr "apple") (VNum (NInt 3)) ;;;
  a <- get_qty (VStr "apple") ;;
  low <- check_low_items default_threshold ;;
  save_data default_file ;;;
  load_data default_file ;;;
  b <- get_qty (VStr "banana") ;;
  ret (a, b, low).

(** ** Definitions the statements use *)

(** The floats below zero. *)
Definition float_neg (f : spec_float) : bool :=
  match f with
  | S754_infinity true | S754_finite true _ _ => true
  | _ => false
  end.

(** [stock_data.get(name, 0)] as a function of the world. *)
Definition quantity (name : string) (w : world) : num :=
  match Dict.get name (stock_data w) with
  | Some v => v
  | None => PyNum.zero
  end.

Arguments PyNum.ltb : simpl never.
Arguments PyNum.leb : simpl never.
Arguments PyNum.add : simpl never.
Arguments PyNum.sub : simpl never.

Ltac unfold_run :=
  unfold exec, eval, get_or_zero, getitem, setitem, delitem, contains,
    arith_result, Dict.mem in *;
  unfold bind, ret, raise, get_stock, put_stock, log in *;
  simpl in *.

(** The dictionary the loop of [load_data] builds from [d]. *)
Fixpoint loaded (data : list (pykey * pyval)) (d : Dict.t num) : Dict.t num :=
  match data with
  | [] => d
  | (k, v) :: data' =>
      loaded data' match as_num v with
                   | Some n => Dict.set (key_text k) n d
                   | None => d
                   end
  end.

(** The warnings of the loop, one per skipped entry. *)
Definition skipped (data : list (pykey * pyval)) : list log_record :=
  flat_map (fun e => match as_num (snd e) with
                     | Some _ => []
                     | None => [LogSkipped (key_text (fst e)) (snd e)]
                     end) data.

(** The entries with a numeric value, under the text of their keys. *)
Definition numeric_entries (data : list (pykey * pyval)) : Dict.t num :=
  flat_map (fun e => match as_num (snd e) with
                     | Some n => [(key_text (fst e), n)]
                     | None => []
                     end) data.

Definition key_texts (data : list (pykey * pyval)) : list string :=
  map (fun e => key_text (fst e)) data.

(** *** Sequences of calls and what holds of the inventory *)

(** The calls that can change the inventory or the data files. *)
Inductive call : Type :=
| AddItem (item qty : pyval) (logs : option (list log_record))
| RemoveItem (item qty : pyval)
| LoadData (file : string)
| SaveData (file : string).

(** The world a call leaves, whether it returns or raises. *)
Definition perform (c : call) (w : world) : world :=
  match c with
  | AddItem item qty logs => exec (add_item item qty logs) w
  | RemoveItem item qty => exec (remove_item item qty) w
  | LoadData file => exec (load_data file) w
  | SaveData file => exec (save_data file) w
  end.

Definition perform_all (cs : list call) (w : world) : world :=
  fold_left (fun w c => perform c w) cs w.

(** [0 < v] for every entry. *)
Definition all_positive (d : Dict.t num) : bool :=
  forallb (fun e => PyNum.ltb PyNum.zero (snd e)) d.

(** [v < 0] for no entry. *)
Definition none_negative (d : Dict.t num) : bool :=
  forallb (fun e => negb (PyNum.ltb (snd e) PyNum.zero)) d.

(** A data file holds no number below zero at the top of its object. *)
Definition file_none_negative (n : node) : bool :=
  match n with
  | Document (VDict data) => none_negative (numeric_entries data)
  | _ => true
  end.

(** No number below zero, in the inventory or in a data file. *)
Definition sound (w : world) : Prop :=
  none_negative (stock_data w) = true /\
  forall file, file_none_negative (files w file) = true.

(** [isinstance(v, dict)] *)
Definition is_dict (v : pyval) : bool :=
  match v with
  | VDict _ => true
  | _ => false
  end.

(** The failures [load_data] recovers from: no file, text that is not
    JSON, a JSON root that is not an object. *)
Definition load_recovers (n : node) : bool :=
  match n with
  | Absent | Garbage => true
  | Document v => negb (is_dict v)
  | Unreadable _ => false
  end.

(** [l1] is [l2] with some elements left out, the order kept. *)
Inductive subseq {A : Type} : list A -> list A -> Prop :=
| subseq_nil : subseq [] []
| subseq_skip (x : A) (l1 l2 : list A) : subseq l1 l2 -> subseq l1 (x :: l2)
| subseq_take (x : A) (l1 l2 : list A) : subseq l1 l2 -> subseq (x :: l1) (x :: l2).

(** The floats 1.0 and positive infinity, and an integer beyond the
    range of [float]. *)
Definition float_one : spec_float := S754_finite false 4503599627370496 (-52).
Definition float_inf : spec_float := S754_infinity false.
Definition googol4 : Z := 10 ^ 400.

(** The inventory [{"crate": 10 ** 400}]. *)
Definition world_huge : world :=
  with_stock [("crate", NInt googol4)] world0.

(** The inventory [{"bulk": inf}]. *)
Definition world_inf : world :=
  with_stock [("bulk", NFloat float_inf)] world0.

(** The inventory [{"apple": 7, "banana": 2}]. *)
Definition world_fruit : world :=
  with_stock [("apple", NInt 7); ("banana", NInt 2)] world0.

(** A world with four data files and apples in stock: one file is not
    JSON, one holds a JSON array, one an object with a negative number,
    one an object with values that are not numbers. *)
Definition files_sample (file : string) : node :=
  if String.eqb file "broken.json" then Garbage
  else if String.eqb file "list.json" then Document (VList [VNum (NInt 1)])
  else if String.eqb file "debt.json" then
    Document (VDict [(KStr "loan", VNum (NInt (-5)))])
  else if String.eqb file "mixed.json" then
    Document (VDict [(KStr "pear", VNum (NInt 4));
                     (KStr "plum", VStr "many");
                     (KStr "fig", VNum (NBool true));
                     (KStr "kiwi", VNone);
                     (KStr "lime", VNum (NFloat float_one))])
  else Absent.

Definition world_sample : world :=
  mkWorld [("apple", NInt 7)] files_sample (fun _ => false) [].

(** *** Definitions for the further properties *)


(** What [print_data] sends to the logging stream for an inventory. *)
Definition report (d : Dict.t num) : list log_record :=
  (LogReportHeader
     :: match d with
        | [] => [LogReportEmpty]
        | _ => []
        end
     ++ map (fun e => LogReportLine (fst e) (snd e)) d)%list.

(** Reading the file raises nothing that [load_data] lets through. *)
Definition readable (n : node) : bool :=
  match n with
  | Unreadable _ => false
  | _ => true
  end.

(** A world with a path that cannot be written. *)
Definition world_locked : world :=
  mkWorld [("apple", NInt 7)] files_sample
          (fun file => String.eqb file "readonly.json") [].

(** A world whose data file cannot be read. *)
Definition world_unreadable : world :=
  mkWorld [("apple", NInt 7)]
          (fun _ => Unreadable (OtherError "PermissionError"))
          (fun _ => false) [].

(** ** Facts about Python numbers *)

Module PyNumFacts.

Import PyNum.

Lemma SFcompare_antisym (f g : spec_float) :
  SFcompare g f = option_map CompOpp (SFcompare f g).
Proof.
  destruct f as [s | s | | s m e], g as [s' | s' | | s' m' e'];
    try destruct s; try destruct s'; try reflexivity.
  - simpl. rewrite (Z.compare_antisym e' e).
    rewrite !Pos.compare_cont_spec. simpl.
    rewrite (Pos.compare_antisym m' m).
    destruct (e' ?= e), (m' ?= m)%positive; reflexivity.
  - simpl. rewrite (Z.compare_antisym e' e).
    rewrite !Pos.compare_cont_spec. simpl.
    rewrite (Pos.compare_antisym m' m).
    destruct (e' ?= e), (m' ?= m)%positive; reflexivity.
Qed.

Lemma compare_antisym (a b : num) :
  compare b a = option_map CompOpp (compare a b).
Proof.
  unfold compare.
  generalize (operand_of a) (operand_of b); intros [x | f] [y | g]; simpl.
  - now rewrite (Z.compare_antisym x y).
  - reflexivity.
  - destruct (compare_int_float y f) as [c |]; simpl; trivial.
    now rewrite CompOpp_involutive.
  - apply SFcompare_antisym.
Qed.

Lemma leb_not_gtb (a b : num) : leb a b = true -> ltb b a = false.
Proof.
  unfold leb, ltb. rewrite (compare_antisym a b).
  destruct (compare a b) as [[ | | ] |]; simpl; congruence.
Qed.

Lemma ltb_not_geb (a b : num) : ltb a b = true -> leb b a = false.
Proof.
  unfold leb, ltb. rewrite (compare_antisym a b).
  destruct (compare a b) as [[ | | ] |]; simpl; congruence.
Qed.

Lemma ltb_leb (a b : num) : ltb a b = true -> leb a b = true.
Proof.
  unfold leb, ltb. destruct (compare a b) as [[ | | ] |]; congruence.
Qed.

Lemma not_leb_not_ltb (a b : num) : leb a b = false -> ltb a b = false.
Proof.
  intros H. destruct (ltb a b) eqn:E; trivial.
  apply ltb_leb in E. congruence.
Qed.

(** *** Signs *)

Lemma shiftl_signed_sign (s : bool) (m : positive) (e : Z) :
  0 <= e -> (0 ?= Z.shiftl (signed s m) e) = if s then Gt else Lt.
Proof.
  intros He. destruct s; unfold signed; simpl cond_Zopp.
  - apply Z.compare_gt_iff. apply Z.shiftl_neg. lia.
  - apply Z.compare_lt_iff.
    assert (H : 0 <= Z.shiftl (Z.pos m) e) by (apply Z.shiftl_nonneg; lia).
    assert (Z.shiftl (Z.pos m) e <> 0); [| lia].
    rewrite Z.shiftl_eq_0_iff by exact He. lia.
Qed.

Lemma ltb_float_zero (f : spec_float) :
  ltb (NFloat f) zero = float_neg f.
Proof.
  unfold ltb, compare, zero, operand_of, compare_int_float, option_map.
  destruct f as [s | s | | s m e]; trivial.
  - now destruct s.
  - destruct (Z.ltb_spec e 0).
    + rewrite Z.shiftl_0_l. now destruct s.
    + rewrite shiftl_signed_sign by assumption. now destruct s.
Qed.

Lemma ltb_int_zero (n : num) (z : Z) :
  operand_of n = OInt z -> ltb n zero = (z <? 0).
Proof.
  unfold ltb, compare; simpl. intros ->.
  unfold Z.ltb. now destruct (z ?= 0).
Qed.

Lemma binary_round_aux_nonneg (m e : Z) (l : location) :
  float_neg (binary_round_aux prec emax false m e l) = false.
Proof.
  unfold binary_round_aux.
  destruct (shr_fexp prec emax m e l) as [r1 e1].
  destruct (shr_fexp prec emax _ e1 loc_Exact) as [r2 e2].
  destruct (shr_m r2); trivial.
  now destruct (e2 <=? emax - prec).
Qed.

Lemma binary_normalize_nonneg (m e : Z) :
  0 <= m -> float_neg (binary_normalize prec emax m e false) = false.
Proof.
  intros H. destruct m as [| p | p]; simpl; trivial; [| lia].
  unfold binary_round.
  destruct (shl_align p e _) as [mz ez].
  apply binary_round_aux_nonneg.
Qed.

Lemma int_to_float_nonneg (z : Z) (f : spec_float) :
  0 <= z -> int_to_float z = Some f -> float_neg f = false.
Proof.
  unfold int_to_float. intros Hz H.
  pose proof (binary_normalize_nonneg z 0 Hz) as Hn.
  destruct (binary_normalize prec emax z 0 false); inversion H; subst; trivial.
Qed.

Lemma SFadd_nonneg (f g : spec_float) :
  float_neg f = false -> float_neg g = false ->
  float_neg (SFadd prec emax f g) = false.
Proof.
  intros Hf Hg.
  destruct f as [s | s | | s m e], g as [s' | s' | | s' m' e'];
    try destruct s; try destruct s';
    try discriminate Hf; try discriminate Hg; try reflexivity.
  unfold SFadd, cond_Zopp. apply binary_normalize_nonneg. lia.
Qed.

Lemma to_float_nonneg (n : num) (f : spec_float) :
  ltb n zero = false -> to_float (operand_of n) = Some f ->
  float_neg f = false.
Proof.
  destruct (operand_of n) as [z | g] eqn:E; simpl.
  - rewrite (ltb_int_zero n z E). intros Hz. apply int_to_float_nonneg.
    apply Z.ltb_ge in Hz. exact Hz.
  - destruct n; try discriminate. injection E as ->.
    rewrite ltb_float_zero. congruence.
Qed.

(** The sum of two numbers, none of them below zero, is not below
    zero. *)
Lemma add_nonneg (a b r : num) :
  ltb a zero = false -> ltb b zero = false -> add a b = Some r ->
  ltb r zero = false.
Proof.
  intros Ha Hb. unfold add, arith.
  destruct (operand_of a) as [x | f] eqn:Ea,
           (operand_of b) as [y | g] eqn:Eb.
  - intros [= <-].
    rewrite (ltb_int_zero a x Ea) in Ha. rewrite (ltb_int_zero b y Eb) in Hb.
    rewrite (ltb_int_zero (NInt (x + y)) (x + y) eq_refl). lia.
  - rewrite <- Ea, <- Eb.
    destruct (to_float (operand_of a)) as [f' |] eqn:Fa; try discriminate.
    destruct (to_float (operand_of b)) as [g' |] eqn:Fb; try discriminate.
    intros [= <-]. rewrite ltb_float_zero.
    apply SFadd_nonneg; eauto using to_float_nonneg.
  - rewrite <- Ea, <- Eb.
    destruct (to_float (operand_of a)) as [f' |] eqn:Fa; try discriminate.
    destruct (to_float (operand_of b)) as [g' |] eqn:Fb; try discriminate.
    intros [= <-]. rewrite ltb_float_zero.
    apply SFadd_nonneg; eauto using to_float_nonneg.
  - rewrite <- Ea, <- Eb.
    destruct (to_float (operand_of a)) as [f' |] eqn:Fa; try discriminate.
    destruct (to_float (operand_of b)) as [g' |] eqn:Fb; try discriminate.
    intros [= <-]. rewrite ltb_float_zero.
    apply SFadd_nonneg; eauto using to_float_nonneg.
Qed.

(** *** Taking away what is there *)

Lemma SFsub_equal (f g : spec_float) :
  SFcompare g f = Some Eq ->
  (exists s, SFsub prec emax f g = S754_zero s) \/
  (exists s, f = S754_infinity s).
Proof.
  destruct f as [s | s | | s m e], g as [s' | s' | | s' m' e'];
    try destruct s; try destruct s'; try discriminate; intros H;
    try (left; eexists; reflexivity); try (right; eexists; reflexivity).
  - left. exists false. simpl in H.
    destruct (e' ?= e) eqn:E; try discriminate.
    apply Z.compare_eq in E. subst e'.
    rewrite Pos.compare_cont_spec in H. simpl in H.
    assert (m' = m) as ->.
    { apply Pos.compare_eq. destruct (m' ?= m)%positive; simpl in H; congruence. }
    unfold SFsub, cond_Zopp. now rewrite Z.sub_diag.
  - left. exists false. simpl in H.
    destruct (e' ?= e) eqn:E; try discriminate.
    apply Z.compare_eq in E. subst e'.
    rewrite Pos.compare_cont_spec in H. simpl in H.
    assert (m' = m) as ->.
    { apply Pos.compare_eq. destruct (m' ?= m)%positive; simpl in H; congruence. }
    unfold SFsub, cond_Zopp. now rewrite Z.sub_diag.
Qed.

(** Taking a finite quantity away from an equal one of the same kind
    leaves zero. *)
Lemma sub_equal (a b : num) :
  same_kind a b = true -> finite a = true -> eqb b a = true ->
  exists r, sub a b = Some r /\ leb r zero = true.
Proof.
  unfold same_kind, eqb, compare, sub, arith.
  destruct (operand_of a) as [x | f] eqn:Ea,
           (operand_of b) as [y | g] eqn:Eb; try discriminate; intros _ Hfin H.
  - destruct (y ?= x) eqn:E; try discriminate.
    apply Z.compare_eq in E. subst y. rewrite Z.sub_diag.
    eexists; split; reflexivity.
  - simpl. destruct (SFcompare g f) as [[ | | ] |] eqn:E; try discriminate.
    destruct (SFsub_equal f g E) as [[s Hs] | [s Hs]].
    + rewrite Hs. eexists; split; reflexivity.
    + destruct a; try discriminate. injection Ea as ->. subst f.
      discriminate.
Qed.

End PyNumFacts.

(** ** Facts about dictionaries *)

Module DictFacts.
Section DictFacts.

Context {V : Type}.
Implicit Types (d : Dict.t V) (k : string) (v : V).

Lemma get_set_same k v d : Dict.get k (Dict.set k v d) = Some v.
Proof.
  induction d as [| [k' v'] d IH]; simpl.
  - now rewrite String.eqb_refl.
  - destruct (String.eqb k k') eqn:E; simpl.
    + now rewrite String.eqb_refl.
    + now rewrite E.
Qed.

Lemma get_set_other k k' v d :
  k' <> k -> Dict.get k' (Dict.set k v d) = Dict.get k' d.
Proof.
  intros N. apply String.eqb_neq in N.
  induction d as [| [k0 v0] d IH]; simpl.
  - now rewrite N.
  - destruct (String.eqb k k0) eqn:E; simpl.
    + apply String.eqb_eq in E. subst k0. now rewrite N.
    + now rewrite IH.
Qed.

Lemma get_del_same k d : Dict.get k (Dict.del k d) = None.
Proof.
  unfold Dict.del.
  induction d as [| [k' v'] d IH]; simpl; trivial.
  destruct (String.eqb k k') eqn:E; simpl; trivial.
  now rewrite E.
Qed.

Lemma get_del_other k k' d :
  k' <> k -> Dict.get k' (Dict.del k d) = Dict.get k' d.
Proof.
  intros N. apply String.eqb_neq in N. unfold Dict.del.
  induction d as [| [k0 v0] d IH]; simpl; trivial.
  destruct (String.eqb k k0) eqn:E; simpl.
  - apply String.eqb_eq in E. subst k0. now rewrite N.
  - now rewrite IH.
Qed.

Lemma get_none_notin k d : Dict.get k d = None <-> ~ In k (Dict.keys d).
Proof.
  induction d as [| [k' v'] d IH]; simpl.
  - tauto.
  - destruct (String.eqb k k') eqn:E.
    + apply String.eqb_eq in E. subst. split; [discriminate | tauto].
    + apply String.eqb_neq in E. rewrite IH. split; [| tauto].
      intros H [F | F]; [congruence | tauto].
Qed.

Lemma get_some_in k v d : Dict.get k d = Some v -> In (k, v) d.
Proof.
  induction d as [| [k' v'] d IH]; simpl; try discriminate.
  destruct (String.eqb k k') eqn:E.
  - apply String.eqb_eq in E. subst. intros [= ->]. now left.
  - auto.
Qed.

Lemma in_get k v d : Dict.wf d -> In (k, v) d -> Dict.get k d = Some v.
Proof.
  unfold Dict.wf.
  induction d as [| [k' v'] d IH]; simpl; [tauto |].
  intros W [H | H]; inversion W as [| ? ? N W']; subst.
  - injection H as -> ->. now rewrite String.eqb_refl.
  - destruct (String.eqb k k') eqn:E; auto.
    apply String.eqb_eq in E. subst k'. exfalso. apply N.
    change k with (fst (k, v)). now apply in_map.
Qed.

(** A new key goes to the end. *)
Lemma set_absent k v d :
  Dict.get k d = None -> Dict.set k v d = (d ++ [(k, v)])%list.
Proof.
  induction d as [| [k' v'] d IH]; simpl; trivial.
  destruct (String.eqb k k'); [discriminate |].
  intros H. now rewrite IH.
Qed.

(** A present key keeps its place. *)
Lemma keys_set_present k v d :
  Dict.get k d <> None -> Dict.keys (Dict.set k v d) = Dict.keys d.
Proof.
  induction d as [| [k' v'] d IH]; simpl; [congruence |].
  destruct (String.eqb k k') eqn:E; simpl.
  - apply String.eqb_eq in E. now subst.
  - intros H. now rewrite IH.
Qed.

Lemma wf_set k v d : Dict.wf d -> Dict.wf (Dict.set k v d).
Proof.
  intros W. destruct (Dict.get k d) eqn:G.
  - unfold Dict.wf. rewrite keys_set_present; [exact W | congruence].
  - rewrite set_absent by exact G. unfold Dict.wf, Dict.keys.
    rewrite map_app. simpl.
    apply NoDup_app; [exact W | repeat constructor; simpl; tauto |].
    intros x Hx [<- | []]. apply get_none_notin in G. tauto.
Qed.

Lemma wf_del k d : Dict.wf d -> Dict.wf (Dict.del k d).
Proof.
  unfold Dict.wf, Dict.del, Dict.keys.
  induction d as [| [k' v'] d IH]; simpl; trivial.
  intros W. inversion W as [| ? ? N W']; subst.
  destruct (String.eqb k k'); simpl; auto.
  constructor; auto.
  intros H. apply N. apply in_map_iff in H as [e [He Hf]].
  apply filter_In in Hf as [Hf _]. apply in_map_iff. eauto.
Qed.

Lemma Forall_set (P : string * V -> Prop) k v d :
  Forall P d -> P (k, v) -> Forall P (Dict.set k v d).
Proof.
  intros F H. induction F as [| [k' v'] d Hx F IH]; simpl.
  - auto.
  - destruct (String.eqb k k'); auto.
Qed.

Lemma Forall_del (P : string * V -> Prop) k d :
  Forall P d -> Forall P (Dict.del k d).
Proof.
  intros F. unfold Dict.del. apply Forall_forall. intros e He.
  apply filter_In in He as [He _].
  rewrite Forall_forall in F. auto.
Qed.

End DictFacts.
End DictFacts.

(** ** How each function runs *)

Example demo_result : run demo = Return (NInt 7, NInt 2, ["banana"]).
Proof. reflexivity. Qed.

Section Runs.

Variables (item qty : pyval) (name : string) (q : num).
Hypothesis item_name : as_name item = Some name.
Hypothesis qty_num : as_num qty = Some q.

(** [add_item] past its checks: the sum is stored, the entry logged. *)
Lemma add_item_ok (logs : option (list log_record)) (w : world) (r : num) :
  PyNum.ltb q PyNum.zero = false ->
  PyNum.add (quantity name w) q = Some r ->
  add_item item qty logs w =
  match logs with
  | None =>
      (Return None,
       with_log (LogAdded q name)
                (with_stock (Dict.set name r (stock_data w)) w))
  | Some l =>
      (Return (Some (l ++ [LogAdded q name])%list),
       with_stock (Dict.set name r (stock_data w)) w)
  end.
Proof.
  intros Hq Hr. unfold add_item. rewrite item_name, qty_num, Hq.
  unfold quantity in Hr. unfold_run. rewrite Hr. now destruct logs.
Qed.

(** [add_item] when [current + qty] overflows. *)
Lemma add_item_overflow (logs : option (list log_record)) (w : world) :
  PyNum.ltb q PyNum.zero = false ->
  PyNum.add (quantity name w) q = None ->
  add_item item qty logs w = (Raise OverflowError, w).
Proof.
  intros Hq Hr. unfold add_item. rewrite item_name, qty_num, Hq.
  unfold quantity in Hr. unfold_run. now rewrite Hr.
Qed.

Lemma add_item_negative (logs : option (list log_record)) (w : world) :
  PyNum.ltb q PyNum.zero = true ->
  add_item item qty logs w = (Raise ValueError, w).
Proof.
  intros Hq. unfold add_item. now rewrite item_name, qty_num, Hq.
Qed.

Lemma remove_item_not_positive (w : world) :
  PyNum.leb q PyNum.zero = true ->
  remove_item item qty w = (Raise ValueError, w).
Proof.
  intros Hq. unfold remove_item. now rewrite item_name, qty_num, Hq.
Qed.

Lemma remove_item_absent (w : world) :
  PyNum.leb q PyNum.zero = false ->
  Dict.get name (stock_data w) = None ->
  remove_item item qty w = (Raise KeyError, w).
Proof.
  intros Hq Hg. unfold remove_item. rewrite item_name, qty_num, Hq.
  unfold_run. now rewrite Hg.
Qed.

Lemma remove_item_short (w : world) (s : num) :
  PyNum.leb q PyNum.zero = false ->
  Dict.get name (stock_data w) = Some s ->
  PyNum.ltb s q = true ->
  remove_item item qty w = (Raise ValueError, w).
Proof.
  intros Hq Hg Hs. unfold remove_item. rewrite item_name, qty_num, Hq.
  unfold_run. repeat (rewrite ?Hg, ?Hs; simpl). reflexivity.
Qed.

Lemma remove_item_overflow (w : world) (s : num) :
  PyNum.leb q PyNum.zero = false ->
  Dict.get name (stock_data w) = Some s ->
  PyNum.ltb s q = false ->
  PyNum.sub s q = None ->
  remove_item item qty w = (Raise OverflowError, w).
Proof.
  intros Hq Hg Hs Hr. unfold remove_item. rewrite item_name, qty_num, Hq.
  unfold_run. repeat (rewrite ?Hg, ?Hs, ?Hr; simpl). reflexivity.
Qed.

(** [remove_item] past its checks: the difference is stored, and the
    entry deleted when the difference is zero or below. *)
Lemma remove_item_ok (w : world) (s r : num) :
  PyNum.leb q PyNum.zero = false ->
  Dict.get name (stock_data w) = Some s ->
  PyNum.ltb s q = false ->
  PyNum.sub s q = Some r ->
  remove_item item qty w =
  (Return tt,
   with_stock (if PyNum.leb r PyNum.zero
               then Dict.del name (Dict.set name r (stock_data w))
               else Dict.set name r (stock_data w)) w).
Proof.
  intros Hq Hg Hs Hr. unfold remove_item. rewrite item_name, qty_num, Hq.
  unfold_run.
  repeat (rewrite ?Hg, ?Hs, ?Hr, ?DictFacts.get_set_same; simpl).
  destruct (PyNum.leb r PyNum.zero); simpl;
    rewrite ?DictFacts.get_set_same; reflexivity.
Qed.

End Runs.

Lemma load_entries_run (data : list (pykey * pyval)) (w : world) :
  load_entries data w =
  (Return tt,
   mkWorld (loaded data (stock_data w)) (files w) (write_denied w)
           (logging w ++ skipped data)).
Proof.
  revert w. induction data as [| [k v] data IH]; intros w; simpl.
  - unfold ret. destruct w; simpl. now rewrite app_nil_r.
  - unfold bind at 1. destruct (as_num v) as [n |] eqn:E.
    + unfold setitem. unfold_run. rewrite IH. simpl. reflexivity.
    + unfold_run. rewrite IH. simpl. now rewrite <- app_assoc.
Qed.

Lemma load_data_object (file : string) (data : list (pykey * pyval)) (w : world) :
  files w file = Document (VDict data) ->
  load_data file w =
  (Return tt,
   mkWorld (loaded data []) (files w) (write_denied w) (logging w ++ skipped data)).
Proof.
  intros H. unfold load_data. rewrite H. unfold bind, put_stock.
  now rewrite load_entries_run.
Qed.

Lemma keys_numeric_entries (data : list (pykey * pyval)) (k : string) :
  In k (Dict.keys (numeric_entries data)) -> In k (key_texts data).
Proof.
  induction data as [| [k' v] data IH]; simpl; trivial.
  unfold Dict.keys. rewrite map_app, in_app_iff. intros [H | H]; auto.
  destruct (as_num v); simpl in H; tauto.
Qed.

(** With distinct keys, none of them in [d], the loop appends the numeric
    entries to [d] in the order of the data. *)
Lemma loaded_distinct (data : list (pykey * pyval)) (d : Dict.t num) :
  NoDup (key_texts data) ->
  (forall k, In k (key_texts data) -> ~ In k (Dict.keys d)) ->
  loaded data d = (d ++ numeric_entries data)%list.
Proof.
  revert d. induction data as [| [k v] data IH]; intros d N F; simpl.
  - now rewrite app_nil_r.
  - inversion N as [| ? ? Nk N']; subst.
    destruct (as_num v) as [n |]; simpl.
    + rewrite DictFacts.set_absent.
      * rewrite IH; [now rewrite <- app_assoc | exact N' |].
        intros k' Hk'. unfold Dict.keys. rewrite map_app, in_app_iff.
        intros [H | [H | []]].
        -- apply (F k'); simpl; auto.
        -- simpl in H. subst k'. auto.
      * apply DictFacts.get_none_notin. apply F. simpl. auto.
    + apply IH; [exact N' |]. intros k' Hk'. apply F. simpl. auto.
Qed.

Lemma numeric_entries_dumped (d : Dict.t num) :
  numeric_entries (map (fun e => (KStr (fst e), VNum (snd e))) d) = d.
Proof.
  induction d as [| [k n] d IH]; simpl; trivial. now rewrite IH.
Qed.


Lemma del_set {V : Type} (k : string) (v : V) (d : Dict.t V) :
  Dict.del k (Dict.set k v d) = Dict.del k d.
Proof.
  unfold Dict.del.
  induction d as [| [k' v'] d IH]; simpl.
  - now rewrite String.eqb_refl.
  - destruct (String.eqb k k') eqn:E; simpl.
    + now rewrite String.eqb_refl.
    + now rewrite E, IH.
Qed.

Lemma subseq_low_names (p : string * num -> bool) (d : Dict.t num) :
  subseq (map fst (filter p d)) (Dict.keys d).
Proof.
  induction d as [| e d IH]; simpl.
  - constructor.
  - destruct (p e); simpl; now constructor.
Qed.

Lemma check_low_items_run (threshold : pyval) (t : num) (w : world) :
  as_num threshold = Some t ->
  check_low_items threshold w =
  (Return (map fst (filter (fun e => PyNum.ltb (snd e) t) (stock_data w))), w).
Proof.
  intros H. unfold check_low_items. now rewrite H.
Qed.

Lemma get_qty_run (item : pyval) (name : string) (w : world) :
  as_name item = Some name ->
  get_qty item w = (Return (quantity name w), w).
Proof.
  intros H. unfold get_qty. now rewrite H.
Qed.

(** ** The queries *)

(** C10: [get_qty] and [check_low_items] leave the world as it is, the
    inventory mapping in particular, for every state and every argument,
    also an argument they reject with [TypeError]. *)
Theorem queries_leave_the_inventory (w : world) (arg : pyval) :
  exec (get_qty arg) w = w /\
  exec (check_low_items arg) w = w /\
  stock_data (exec (get_qty arg) w) = stock_data w /\
  stock_data (exec (check_low_items arg) w) = stock_data w.
Proof.
  assert (G : exec (get_qty arg) w = w).
  { unfold exec, get_qty. now destruct (as_name arg). }
  assert (L : exec (check_low_items arg) w = w).
  { unfold exec, check_low_items. now destruct (as_num arg). }
  rewrite G, L. auto.
Qed.

(** C8: for a numeric threshold [check_low_items] returns the names of
    exactly the items of the mapping whose quantity is strictly below the
    threshold, each once per item and in the order of the mapping; for a
    threshold that is not numeric it raises [TypeError]. *)
Theorem check_low_items_exact (w : world) (threshold : pyval) :
  match as_num threshold with
  | Some t =>
      exists names,
        eval (check_low_items threshold) w = Return names /\
        (forall name,
            In name names <->
            exists q, In (name, q) (stock_data w) /\ PyNum.ltb q t = true) /\
        subseq names (Dict.keys (stock_data w)) /\
        (Dict.wf (stock_data w) -> NoDup names)
  | None => eval (check_low_items threshold) w = Raise TypeError
  end.
Proof.
  destruct (as_num threshold) as [t |] eqn:E.
  - exists (map fst (filter (fun e => PyNum.ltb (snd e) t) (stock_data w))).
    split; [| split; [| split]].
    + unfold eval. now rewrite (check_low_items_run threshold t w E).
    + intros name. rewrite in_map_iff. split.
      * intros [[k q] [<- H]]. apply filter_In in H as [H1 H2]. eauto.
      * intros [q [H1 H2]]. exists (name, q). split; trivial.
        apply filter_In. auto.
    + apply subseq_low_names.
    + unfold Dict.wf, Dict.keys. generalize (stock_data w) as d.
      induction d as [| e d IH]; simpl; intros N; [constructor |].
      inversion N as [| ? ? Ne N']; subst.
      destruct (PyNum.ltb (snd e) t); simpl; auto.
      constructor; auto. intros H. apply Ne.
      apply in_map_iff in H as [e' [He' Hf]].
      apply filter_In in Hf as [Hf _]. apply in_map_iff. eauto.
  - unfold eval, check_low_items. now rewrite E.
Qed.

(** ** Adding *)

(** C9: for a non-empty string [item] that is absent, [add_item(item, 0)]
    returns and creates the entry [item -> 0]: the item is a key of the
    mapping afterwards and is among the names [check_low_items(t)]
    returns, for every numeric [t] with [0 < t]. *)
Theorem add_item_zero_creates_entry
        (w : world) (item : pyval) (logs : option (list log_record))
        (name : string) :
  as_name item = Some name ->
  Dict.get name (stock_data w) = None ->
  let w' := exec (add_item item (VNum (NInt 0)) logs) w in
  (exists l, eval (add_item item (VNum (NInt 0)) logs) w = Return l) /\
  Dict.get name (stock_data w') = Some (NInt 0) /\
  In name (Dict.keys (stock_data w')) /\
  stock_data w' = (stock_data w ++ [(name, NInt 0)])%list /\
  forall (threshold : pyval) (t : num),
    as_num threshold = Some t -> PyNum.ltb PyNum.zero t = true ->
    exists names,
      eval (check_low_items threshold) w' = Return names /\ In name names.
Proof.
  intros Hn Hg w'.
  assert (R : add_item item (VNum (NInt 0)) logs w =
              match logs with
              | None =>
                  (Return None,
                   with_log (LogAdded (NInt 0) name)
                     (with_stock (Dict.set name (NInt 0) (stock_data w)) w))
              | Some l =>
                  (Return (Some (l ++ [LogAdded (NInt 0) name])%list),
                   with_stock (Dict.set name (NInt 0) (stock_data w)) w)
              end).
  { apply add_item_ok; trivial. unfold quantity. now rewrite Hg. }
  assert (S : stock_data w' = Dict.set name (NInt 0) (stock_data w)).
  { subst w'. unfold exec. rewrite R. now destruct logs. }
  assert (G : Dict.get name (stock_data w') = Some (NInt 0)).
  { rewrite S. apply DictFacts.get_set_same. }
  split; [| split; [| split; [| split]]].
  - unfold eval. rewrite R. destruct logs; simpl; eauto.
  - exact G.
  - apply DictFacts.get_some_in in G.
    change name with (fst (name, NInt 0)). now apply in_map.
  - rewrite S. now apply DictFacts.set_absent.
  - intros threshold t Ht Hpos.
    eexists. split.
    + unfold eval. now rewrite (check_low_items_run threshold t w' Ht).
    + apply in_map_iff. exists (name, NInt 0). split; trivial.
      apply filter_In. split; [now apply DictFacts.get_some_in | exact Hpos].
Qed.

Lemma add_item_zero_creates_entry_witness :
  let w' := exec (add_item (VStr "pear") (VNum (NInt 0)) None) world0 in
  (exists l, eval (add_item (VStr "pear") (VNum (NInt 0)) None) world0 = Return l) /\
  Dict.get "pear" (stock_data w') = Some (NInt 0) /\
  In "pear" (Dict.keys (stock_data w')) /\
  stock_data w' = (stock_data world0 ++ [("pear", NInt 0)])%list /\
  forall (threshold : pyval) (t : num),
    as_num threshold = Some t -> PyNum.ltb PyNum.zero t = true ->
    exists names,
      eval (check_low_items threshold) w' = Return names /\ In "pear" names.
Proof.
  apply (add_item_zero_creates_entry world0 (VStr "pear") None "pear");
    reflexivity.
Defined.




(** ** Removing *)

(** C5: for arguments that pass the checks of [remove_item] on their
    types ([item] a non-empty string, [qty] numeric), the call raises
    [KeyError] when the item is absent and [qty] is not rejected as
    [qty <= 0], and raises [ValueError] when the item is present with a
    stock below [qty]; in both cases the world, the inventory mapping in
    particular, is as it was before the call. *)
Theorem remove_item_failures
        (w : world) (item qty : pyval) (name : string) (q : num) :
  as_name item = Some name ->
  as_num qty = Some q ->
  (Dict.get name (stock_data w) = None ->
   PyNum.leb q PyNum.zero = false ->
   remove_item item qty w = (Raise KeyError, w)) /\
  (forall s, Dict.get name (stock_data w) = Some s ->
             PyNum.ltb s q = true ->
             remove_item item qty w = (Raise ValueError, w)) /\
  (forall e, eval (remove_item item qty) w = Raise e ->
             stock_data (exec (remove_item item qty) w) = stock_data w).
Proof.
  intros Hn Hq. split; [| split].
  - intros Hg Hpos. exact (remove_item_absent item qty name q Hn Hq w Hpos Hg).
  - intros s Hg Hs. destruct (PyNum.leb q PyNum.zero) eqn:Hpos.
    + exact (remove_item_not_positive item qty name q Hn Hq w Hpos).
    + exact (remove_item_short item qty name q Hn Hq w s Hpos Hg Hs).
  - intros e. unfold eval, exec.
    destruct (PyNum.leb q PyNum.zero) eqn:Hpos.
    { now rewrite (remove_item_not_positive item qty name q Hn Hq w Hpos). }
    destruct (Dict.get name (stock_data w)) as [s |] eqn:Hg.
    2: { now rewrite (remove_item_absent item qty name q Hn Hq w Hpos Hg). }
    destruct (PyNum.ltb s q) eqn:Hs.
    { now rewrite (remove_item_short item qty name q Hn Hq w s Hpos Hg Hs). }
    destruct (PyNum.sub s q) as [r |] eqn:Hr.
    + rewrite (remove_item_ok item qty name q Hn Hq w s r Hpos Hg Hs Hr).
      discriminate.
    + now rewrite (remove_item_overflow item qty name q Hn Hq w s Hpos Hg Hs Hr).
Qed.

Lemma remove_item_failures_witness :
  remove_item (VStr "ghost") (VNum (NInt 1)) world_fruit
  = (Raise KeyError, world_fruit) /\
  remove_item (VStr "banana") (VNum (NInt 3)) world_fruit
  = (Raise ValueError, world_fruit).
Proof.
  split.
  - apply (remove_item_failures world_fruit (VStr "ghost") (VNum (NInt 1))
                                "ghost" (NInt 1)); reflexivity.
  - apply (remove_item_failures world_fruit (VStr "banana") (VNum (NInt 3))
                                "banana" (NInt 3)) with (s := NInt 2);
      reflexivity.
Defined.

(** C4, as the code has it: for a present item with stock [s] and a
    numeric [qty] with [0 < qty <= s], when the difference [s - qty] is
    defined [remove_item] returns and stores it in place of [s], or, when
    it is [<= 0], deletes the entry, after which [get_qty(item)] returns
    0; no other entry changes. When [s - qty] raises [OverflowError] (an
    [int] operand too large for a [float]) the call raises it and leaves
    the world as it was. Removing the full stock deletes the entry when
    stock and [qty] are both integers or both floats and the stock is
    finite. *)
Theorem remove_item_decrements
        (w : world) (item qty : pyval) (name : string) (q s : num) :
  as_name item = Some name ->
  as_num qty = Some q ->
  Dict.get name (stock_data w) = Some s ->
  PyNum.ltb PyNum.zero q = true ->
  PyNum.leb q s = true ->
  let w' := exec (remove_item item qty) w in
  match PyNum.sub s q with
  | Some rest =>
      eval (remove_item item qty) w = Return tt /\
      (if PyNum.leb rest PyNum.zero
       then Dict.get name (stock_data w') = None /\
            eval (get_qty item) w' = Return PyNum.zero
       else Dict.get name (stock_data w') = Some rest /\
            eval (get_qty item) w' = Return rest /\
            Dict.keys (stock_data w') = Dict.keys (stock_data w)) /\
      (forall other, other <> name ->
                     Dict.get other (stock_data w') = Dict.get other (stock_data w))
  | None => remove_item item qty w = (Raise OverflowError, w)
  end /\
  (PyNum.same_kind s q = true -> PyNum.finite s = true ->
   PyNum.eqb q s = true ->
   Dict.get name (stock_data w') = None /\
   eval (get_qty item) w' = Return PyNum.zero).
Proof.
  intros Hn Hq Hg Hpos Hle w'.
  apply PyNumFacts.ltb_not_geb in Hpos. apply PyNumFacts.leb_not_gtb in Hle.
  assert (Del : forall r, PyNum.sub s q = Some r -> PyNum.leb r PyNum.zero = true ->
                          Dict.get name (stock_data w') = None /\
                          eval (get_qty item) w' = Return PyNum.zero).
  { intros r Hr Hz.
    assert (G : Dict.get name (stock_data w') = None).
    { subst w'. unfold exec.
      rewrite (remove_item_ok item qty name q Hn Hq w s r Hpos Hg Hle Hr).
      simpl. rewrite Hz. now rewrite del_set, DictFacts.get_del_same. }
    split; trivial.
    unfold eval. rewrite (get_qty_run item name w' Hn). simpl.
    unfold quantity. now rewrite G. }
  split.
  - destruct (PyNum.sub s q) as [rest |] eqn:Hr.
    + pose proof (remove_item_ok item qty name q Hn Hq w s rest Hpos Hg Hle Hr) as R.
      split; [| split].
      * unfold eval. now rewrite R.
      * destruct (PyNum.leb rest PyNum.zero) eqn:Hz.
        -- now apply (Del rest).
        -- assert (S : stock_data w' = Dict.set name rest (stock_data w)).
           { subst w'. unfold exec. now rewrite R. }
           split; [| split].
           ++ now rewrite S, DictFacts.get_set_same.
           ++ unfold eval. rewrite (get_qty_run item name w' Hn). simpl.
              unfold quantity. now rewrite S, DictFacts.get_set_same.
           ++ rewrite S. apply DictFacts.keys_set_present. congruence.
      * intros other N. subst w'. unfold exec. rewrite R. simpl.
        destruct (PyNum.leb rest PyNum.zero).
        -- rewrite del_set. now apply DictFacts.get_del_other.
        -- now apply DictFacts.get_set_other.
    + exact (remove_item_overflow item qty name q Hn Hq w s Hpos Hg Hle Hr).
  - intros Hk Hf He.
    destruct (PyNumFacts.sub_equal s q Hk Hf He) as [r [Hr Hz]].
    now apply (Del r).
Qed.

(** C4 at two inventories. With [inf] in stock, [remove_item("bulk",
    inf)] takes the full stock ([0 < inf <= inf]) and returns, yet the
    entry stays, with NaN for its quantity. With [10 ** 400] crates in
    stock, [remove_item("crate", 1.0)] has [0 < 1.0 <= 10 ** 400] and
    raises [OverflowError]. *)
Lemma remove_item_counterexample :
  (PyNum.ltb PyNum.zero (NFloat float_inf) = true /\
   PyNum.leb (NFloat float_inf) (NFloat float_inf) = true /\
   PyNum.eqb (NFloat float_inf) (NFloat float_inf) = true /\
   eval (remove_item (VStr "bulk") (VNum (NFloat float_inf))) world_inf
   = Return tt /\
   eval (get_qty (VStr "bulk"))
        (exec (remove_item (VStr "bulk") (VNum (NFloat float_inf))) world_inf)
   = Return (NFloat S754_nan)) /\
  (PyNum.ltb PyNum.zero (NFloat float_one) = true /\
   PyNum.leb (NFloat float_one) (NInt googol4) = true /\
   remove_item (VStr "crate") (VNum (NFloat float_one)) world_huge
   = (Raise OverflowError, world_huge)).
Proof. vm_compute. repeat split. Qed.

Lemma remove_item_decrements_witness :
  (eval (remove_item (VStr "apple") (VNum (NInt 3))) world_fruit = Return tt /\
   (Dict.get "apple" (stock_data (exec (remove_item (VStr "apple") (VNum (NInt 3))) world_fruit))
    = Some (NInt 4) /\
    eval (get_qty (VStr "apple"))
         (exec (remove_item (VStr "apple") (VNum (NInt 3))) world_fruit)
    = Return (NInt 4) /\
    Dict.keys (stock_data (exec (remove_item (VStr "apple") (VNum (NInt 3))) world_fruit))
    = Dict.keys (stock_data world_fruit)) /\
   (forall other, other <> "apple" ->
      Dict.get other (stock_data (exec (remove_item (VStr "apple") (VNum (NInt 3))) world_fruit))
      = Dict.get other (stock_data world_fruit))) /\
  (Dict.get "banana" (stock_data (exec (remove_item (VStr "banana") (VNum (NInt 2))) world_fruit))
   = None /\
   eval (get_qty (VStr "banana"))
        (exec (remove_item (VStr "banana") (VNum (NInt 2))) world_fruit)
   = Return PyNum.zero).
Proof.
  split.
  - apply (remove_item_decrements world_fruit (VStr "apple") (VNum (NInt 3))
                                  "apple" (NInt 3) (NInt 7)); reflexivity.
  - apply (remove_item_decrements world_fruit (VStr "banana") (VNum (NInt 2))
                                  "banana" (NInt 2) (NInt 2)); reflexivity.
Defined.

(** ** Loading and saving *)

(** C6: when the file does not exist, when its text is not JSON and when
    the JSON root is not an object, [load_data] returns and leaves the
    inventory and the files as they were; whatever the file, the
    inventory differs after the call only if the file decoded to an
    object, so the clearing happens only after a successful parse. *)
Theorem load_data_failures_keep_inventory (w : world) (file : string) :
  load_recovers (files w file) = true ->
  eval (load_data file) w = Return tt /\
  stock_data (exec (load_data file) w) = stock_data w /\
  files (exec (load_data file) w) = files w /\
  forall (u : world) (path : string),
    stock_data (exec (load_data path) u) = stock_data u \/
    exists data, files u path = Document (VDict data).
Proof.
  intros H. unfold eval, exec, load_data.
  split; [| split; [| split]].
  - destruct (files w file) as [| e | | v]; try discriminate; trivial.
    destruct v; try discriminate; trivial.
  - destruct (files w file) as [| e | | v]; try discriminate; trivial.
    destruct v; try discriminate; trivial.
  - destruct (files w file) as [| e | | v]; try discriminate; trivial.
    destruct v; try discriminate; trivial.
  - intros u path.
    destruct (files u path) as [| e | | v]; auto.
    destruct v; eauto.
Qed.

Lemma load_data_failures_keep_inventory_witness :
  (eval (load_data "none.json") world_sample = Return tt /\
   stock_data (exec (load_data "none.json") world_sample) = [("apple", NInt 7)]) /\
  (eval (load_data "broken.json") world_sample = Return tt /\
   stock_data (exec (load_data "broken.json") world_sample) = [("apple", NInt 7)]) /\
  (eval (load_data "list.json") world_sample = Return tt /\
   stock_data (exec (load_data "list.json") world_sample) = [("apple", NInt 7)]).
Proof.
  split; [| split].
  - split; apply (load_data_failures_keep_inventory world_sample "none.json");
      reflexivity.
  - split; apply (load_data_failures_keep_inventory world_sample "broken.json");
      reflexivity.
  - split; apply (load_data_failures_keep_inventory world_sample "list.json");
      reflexivity.
Defined.

Lemma get_numeric_entries (data : list (pykey * pyval)) (name : string) (n : num) :
  Dict.get name (numeric_entries data) = Some n ->
  exists k v, In (k, v) data /\ key_text k = name /\ as_num v = Some n.
Proof.
  intros H. apply DictFacts.get_some_in in H.
  unfold numeric_entries in H. apply in_flat_map in H as [[k v] [Hin H]].
  simpl in H. destruct (as_num v) as [m |] eqn:E; simpl in H; [| tauto].
  destruct H as [[= <- <-] | []]. eauto.
Qed.

Lemma wf_numeric_entries (data : list (pykey * pyval)) :
  NoDup (key_texts data) -> Dict.wf (numeric_entries data).
Proof.
  unfold Dict.wf.
  induction data as [| [k v] data IH]; simpl; intros N; [constructor |].
  inversion N as [| ? ? Nk N']; subst.
  unfold Dict.keys. rewrite map_app. fold (Dict.keys (numeric_entries data)).
  destruct (as_num v); simpl; auto.
  constructor; auto. intros H. apply Nk. now apply keys_numeric_entries.
Qed.

(** C7: when the file decodes to an object (its keys distinct as
    texts), [load_data] returns and the inventory is then exactly the
    entries of the object whose value is numeric, in the order of the
    object, under the text of their keys: every such entry is in the
    inventory, whatever the other values are, and every entry of the
    inventory comes from one; each entry with another value is skipped
    with one warning. *)
Theorem load_data_keeps_numeric_entries
        (w : world) (file : string) (data : list (pykey * pyval)) :
  files w file = Document (VDict data) ->
  NoDup (key_texts data) ->
  let w' := exec (load_data file) w in
  eval (load_data file) w = Return tt /\
  stock_data w' = numeric_entries data /\
  (forall k v n, In (k, v) data -> as_num v = Some n ->
                 Dict.get (key_text k) (stock_data w') = Some n) /\
  (forall name n, Dict.get name (stock_data w') = Some n ->
                  exists k v, In (k, v) data /\ key_text k = name /\
                              as_num v = Some n) /\
  (forall k v, In (k, v) data -> as_num v = None ->
               Dict.get (key_text k) (stock_data w') = None /\
               In (LogSkipped (key_text k) v) (logging w')).
Proof.
  intros Hf N w'.
  assert (S : stock_data w' = numeric_entries data).
  { subst w'. unfold exec. rewrite (load_data_object file data w Hf). simpl.
    rewrite loaded_distinct; [reflexivity | exact N | intros k _ []]. }
  assert (L : logging w' = (logging w ++ skipped data)%list).
  { subst w'. unfold exec. now rewrite (load_data_object file data w Hf). }
  split; [| split; [| split; [| split]]].
  - unfold eval. now rewrite (load_data_object file data w Hf).
  - exact S.
  - intros k v n Hin Hv. rewrite S.
    apply DictFacts.in_get; [now apply wf_numeric_entries |].
    unfold numeric_entries. apply in_flat_map. exists (k, v). split; trivial.
    simpl. rewrite Hv. now left.
  - intros name n. rewrite S. apply get_numeric_entries.
  - intros k v Hin Hv. split.
    + rewrite S. destruct (Dict.get (key_text k) (numeric_entries data)) as [n |] eqn:G;
        trivial.
      apply get_numeric_entries in G as [k' [v' [Hin' [Hk Hv']]]].
      exfalso.
      assert (E : (k', v') = (k, v)).
      { clear - N Hin Hin' Hk. unfold key_texts in N.
        induction data as [| e data IH]; simpl in *; [tauto |].
        inversion N as [| ? ? Ne N']; subst.
        destruct Hin as [-> | Hin], Hin' as [E' | Hin']; auto.
        - exfalso. apply Ne. simpl. rewrite <- Hk.
          change (key_text k') with ((fun e => key_text (fst e)) (k', v')).
          now apply in_map.
        - subst e. exfalso. apply Ne. simpl. rewrite Hk.
          change (key_text k) with ((fun e => key_text (fst e)) (k, v)).
          now apply in_map. }
      injection E as -> ->. congruence.
    + rewrite L. apply in_or_app. right. unfold skipped.
      apply in_flat_map. exists (k, v). split; trivial.
      simpl. rewrite Hv. now left.
Qed.

Lemma load_data_keeps_numeric_entries_witness :
  eval (load_data "mixed.json") world_sample = Return tt /\
  stock_data (exec (load_data "mixed.json") world_sample)
  = [("pear", NInt 4); ("fig", NBool true); ("lime", NFloat float_one)].
Proof.
  split.
  - apply (load_data_keeps_numeric_entries world_sample "mixed.json" _ eq_refl).
    vm_compute. repeat constructor; simpl; intuition discriminate.
  - apply (load_data_keeps_numeric_entries world_sample "mixed.json" _ eq_refl).
    vm_compute. repeat constructor; simpl; intuition discriminate.
Defined.


Lemma save_data_denied (file : string) (w : world) :
  write_denied w file = true ->
  save_data file w = (Return tt, with_log (LogWriteError file) w).
Proof.
  intros H. unfold save_data. now rewrite H.
Qed.



(** ** What holds after every sequence of calls *)

Lemma none_negative_Forall (d : Dict.t num) :
  none_negative d = true <->
  Forall (fun e => PyNum.ltb (snd e) PyNum.zero = false) d.
Proof.
  unfold none_negative. rewrite forallb_forall, Forall_forall.
  split; intros H e He; specialize (H e He);
    destruct (PyNum.ltb (snd e) PyNum.zero); simpl in *; congruence.
Qed.

Lemma add_item_effect (item qty : pyval) (logs : option (list log_record))
      (w : world) :
  files (exec (add_item item qty logs) w) = files w /\
  (stock_data (exec (add_item item qty logs) w) = stock_data w \/
   exists name q r,
     PyNum.ltb q PyNum.zero = false /\
     PyNum.add (quantity name w) q = Some r /\
     stock_data (exec (add_item item qty logs) w)
     = Dict.set name r (stock_data w)).
Proof.
  destruct (as_name item) as [name |] eqn:Hn.
  2: { unfold exec, add_item. rewrite Hn. auto. }
  destruct (as_num qty) as [q |] eqn:Hq.
  2: { unfold exec, add_item. rewrite Hn, Hq. auto. }
  destruct (PyNum.ltb q PyNum.zero) eqn:Hneg.
  { unfold exec. rewrite (add_item_negative item qty name q Hn Hq logs w Hneg). auto. }
  destruct (PyNum.add (quantity name w) q) as [r |] eqn:Hr.
  - unfold exec. rewrite (add_item_ok item qty name q Hn Hq logs w r Hneg Hr).
    split; [now destruct logs |].
    right. exists name, q, r. repeat split; trivial. now destruct logs.
  - unfold exec. rewrite (add_item_overflow item qty name q Hn Hq logs w Hneg Hr).
    auto.
Qed.

Lemma remove_item_effect (item qty : pyval) (w : world) :
  files (exec (remove_item item qty) w) = files w /\
  (stock_data (exec (remove_item item qty) w) = stock_data w \/
   exists name r,
     stock_data (exec (remove_item item qty) w)
     = if PyNum.leb r PyNum.zero
       then Dict.del name (stock_data w)
       else Dict.set name r (stock_data w)).
Proof.
  destruct (as_name item) as [name |] eqn:Hn.
  2: { unfold exec, remove_item. rewrite Hn. auto. }
  destruct (as_num qty) as [q |] eqn:Hq.
  2: { unfold exec, remove_item. rewrite Hn, Hq. auto. }
  destruct (PyNum.leb q PyNum.zero) eqn:Hpos.
  { unfold exec. rewrite (remove_item_not_positive item qty name q Hn Hq w Hpos). auto. }
  destruct (Dict.get name (stock_data w)) as [s |] eqn:Hg.
  2: { unfold exec. rewrite (remove_item_absent item qty name q Hn Hq w Hpos Hg). auto. }
  destruct (PyNum.ltb s q) eqn:Hs.
  { unfold exec. rewrite (remove_item_short item qty name q Hn Hq w s Hpos Hg Hs). auto. }
  destruct (PyNum.sub s q) as [r |] eqn:Hr.
  - unfold exec. rewrite (remove_item_ok item qty name q Hn Hq w s r Hpos Hg Hs Hr).
    split; trivial. right. exists name, r. simpl.
    destruct (PyNum.leb r PyNum.zero); trivial. apply del_set.
  - unfold exec. rewrite (remove_item_overflow item qty name q Hn Hq w s Hpos Hg Hs Hr).
    auto.
Qed.

Lemma load_data_effect (file : string) (w : world) :
  files (exec (load_data file) w) = files w /\
  (stock_data (exec (load_data file) w) = stock_data w \/
   exists data,
     files w file = Document (VDict data) /\
     stock_data (exec (load_data file) w) = loaded data []).
Proof.
  destruct (files w file) as [| e | | v] eqn:F;
    try (unfold exec, load_data; rewrite F; simpl; auto; fail).
  destruct v as [| n | s | l | data];
    try (unfold exec, load_data; rewrite F; simpl; auto; fail).
  unfold exec. rewrite (load_data_object file data w F). simpl. eauto.
Qed.

Lemma Forall_loaded (P : string * num -> Prop) (data : list (pykey * pyval))
      (d : Dict.t num) :
  Forall P d -> Forall P (numeric_entries data) -> Forall P (loaded data d).
Proof.
  revert d. induction data as [| [k v] data IH]; simpl; intros d Hd Hn; trivial.
  apply Forall_app in Hn as [Hv Hn].
  apply IH; trivial.
  destruct (as_num v) as [n |]; trivial.
  apply DictFacts.Forall_set; trivial. now inversion Hv.
Qed.

Lemma wf_loaded (data : list (pykey * pyval)) (d : Dict.t num) :
  Dict.wf d -> Dict.wf (loaded data d).
Proof.
  revert d. induction data as [| [k v] data IH]; simpl; intros d W; trivial.
  apply IH. destruct (as_num v); trivial. now apply DictFacts.wf_set.
Qed.

(** Every call keeps the keys of the inventory distinct. *)
Lemma perform_wf (c : call) (w : world) :
  Dict.wf (stock_data w) -> Dict.wf (stock_data (perform c w)).
Proof.
  intros W. destruct c as [item qty logs | item qty | file | file]; simpl.
  - destruct (add_item_effect item qty logs w) as [_ [-> | [name [q [r [_ [_ ->]]]]]]];
      trivial. now apply DictFacts.wf_set.
  - destruct (remove_item_effect item qty w) as [_ [-> | [name [r ->]]]]; trivial.
    destruct (PyNum.leb r PyNum.zero);
      [now apply DictFacts.wf_del | now apply DictFacts.wf_set].
  - destruct (load_data_effect file w) as [_ [-> | [data [_ ->]]]]; trivial.
    apply wf_loaded. constructor.
  - unfold exec, save_data. now destruct (write_denied w file).
Qed.

Lemma perform_sound (c : call) (w : world) : sound w -> sound (perform c w).
Proof.
  intros [Hs Hf]. apply none_negative_Forall in Hs.
  destruct c as [item qty logs | item qty | file | file]; simpl.
  - destruct (add_item_effect item qty logs w) as [F S]. split.
    + apply none_negative_Forall.
      destruct S as [-> | [name [q [r [Hq [Hr ->]]]]]]; trivial.
      apply DictFacts.Forall_set; trivial. simpl.
      apply (PyNumFacts.add_nonneg (quantity name w) q r); trivial.
      unfold quantity. destruct (Dict.get name (stock_data w)) as [v |] eqn:G.
      * apply DictFacts.get_some_in in G.
        rewrite Forall_forall in Hs. exact (Hs _ G).
      * reflexivity.
    + now rewrite F.
  - destruct (remove_item_effect item qty w) as [F S]. split.
    + apply none_negative_Forall.
      destruct S as [-> | [name [r ->]]]; trivial.
      destruct (PyNum.leb r PyNum.zero) eqn:Hz.
      * now apply DictFacts.Forall_del.
      * apply DictFacts.Forall_set; trivial. simpl.
        now apply PyNumFacts.not_leb_not_ltb.
    + now rewrite F.
  - destruct (load_data_effect file w) as [F S]. split.
    + apply none_negative_Forall.
      destruct S as [-> | [data [Hd ->]]]; trivial.
      apply Forall_loaded; [constructor |].
      apply none_negative_Forall. specialize (Hf file). now rewrite Hd in Hf.
    + now rewrite F.
  - unfold exec, save_data. destruct (write_denied w file); simpl.
    + split; [now apply none_negative_Forall | exact Hf].
    + split; [now apply none_negative_Forall |].
      intros file'. simpl. destruct (String.eqb file' file); [| apply Hf].
      change (none_negative (numeric_entries
                (map (fun e => (KStr (fst e), VNum (snd e))) (stock_data w))) = true).
      rewrite numeric_entries_dumped. now apply none_negative_Forall.
Qed.

Lemma perform_all_sound (cs : list call) (w : world) :
  sound w -> sound (perform_all cs w).
Proof.
  revert w. induction cs as [| c cs IH]; simpl; intros w H; trivial.
  apply IH. now apply perform_sound.
Qed.

Lemma remove_item_leaves_no_zero (w : world) (item qty : pyval) (name : string) :
  as_name item = Some name ->
  eval (remove_item item qty) w = Return tt ->
  match Dict.get name (stock_data (exec (remove_item item qty) w)) with
  | Some v => PyNum.leb v PyNum.zero = false
  | None => True
  end.
Proof.
  intros Hn. unfold eval, exec.
  destruct (as_num qty) as [q |] eqn:Hq.
  2: { unfold remove_item. rewrite Hn, Hq. discriminate. }
  destruct (PyNum.leb q PyNum.zero) eqn:Hpos.
  { rewrite (remove_item_not_positive item qty name q Hn Hq w Hpos). discriminate. }
  destruct (Dict.get name (stock_data w)) as [s |] eqn:Hg.
  2: { rewrite (remove_item_absent item qty name q Hn Hq w Hpos Hg). discriminate. }
  destruct (PyNum.ltb s q) eqn:Hs.
  { rewrite (remove_item_short item qty name q Hn Hq w s Hpos Hg Hs). discriminate. }
  destruct (PyNum.sub s q) as [r |] eqn:Hr.
  - rewrite (remove_item_ok item qty name q Hn Hq w s r Hpos Hg Hs Hr).
    intros _. simpl. destruct (PyNum.leb r PyNum.zero) eqn:Hz.
    + now rewrite del_set, DictFacts.get_del_same.
    + now rewrite DictFacts.get_set_same.
  - rewrite (remove_item_overflow item qty name q Hn Hq w s Hpos Hg Hs Hr).
    discriminate.
Qed.

(** C1, as the code has it: from an inventory with no entry below zero
    and data files with no number below zero, every sequence of
    [add_item], [remove_item], [load_data] and [save_data] calls, returning
    or raising, leaves an inventory with no entry below zero, and files
    with no number below zero. Entries equal to zero can be held. A
    [remove_item] call that returns never leaves the entry of its item at
    zero or below. *)
Theorem no_entry_below_zero (cs : list call) (w : world) :
  sound w ->
  none_negative (stock_data (perform_all cs w)) = true /\
  sound (perform_all cs w) /\
  forall (u : world) (item qty : pyval) (name : string),
    as_name item = Some name ->
    eval (remove_item item qty) u = Return tt ->
    match Dict.get name (stock_data (perform (RemoveItem item qty) u)) with
    | Some v => PyNum.leb v PyNum.zero = false
    | None => True
    end.
Proof.
  intros H. pose proof (perform_all_sound cs w H) as S.
  split; [apply S | split; [exact S |]].
  intros u item qty name. apply remove_item_leaves_no_zero.
Qed.

(** C1 at two runs from the empty inventory: after [add_item("apple",
    0)] the inventory holds [apple -> 0]; after [load_data] of a file
    with [{"loan": -5}] it holds [loan -> -5]. Neither entry is strictly
    positive. *)
Lemma entry_not_positive_counterexample :
  (stock_data (perform_all [AddItem (VStr "apple") (VNum (NInt 0)) None] world0)
   = [("apple", NInt 0)] /\
   all_positive
     (stock_data (perform_all [AddItem (VStr "apple") (VNum (NInt 0)) None] world0))
   = false) /\
  (stock_data (perform_all [LoadData "debt.json"] (with_stock [] world_sample))
   = [("loan", NInt (-5))] /\
   all_positive
     (stock_data (perform_all [LoadData "debt.json"] (with_stock [] world_sample)))
   = false).
Proof. vm_compute. repeat split. Qed.

Lemma no_entry_below_zero_witness :
  none_negative
    (stock_data
       (perform_all [AddItem (VStr "apple") (VNum (NInt 10)) None;
                     AddItem (VStr "banana") (VNum (NFloat float_one)) None;
                     RemoveItem (VStr "apple") (VNum (NInt 10));
                     SaveData "inventory.json";
                     AddItem (VStr "cherry") (VNum (NInt 0)) None;
                     LoadData "inventory.json"]
                    world0)) = true.
Proof.
  apply (no_entry_below_zero _ world0).
  split; [reflexivity | intros file; reflexivity].
Defined.

(** ** Further properties of the module *)

(** *** Integer quantities and repeated updates *)

Lemma add_int (a b : Z) : PyNum.add (NInt a) (NInt b) = Some (NInt (a + b)).
Proof. reflexivity. Qed.

Lemma sub_int (a b : Z) : PyNum.sub (NInt a) (NInt b) = Some (NInt (a - b)).
Proof. reflexivity. Qed.

Lemma ltb_int (a b : Z) : PyNum.ltb (NInt a) (NInt b) = (a <? b).
Proof.
  unfold PyNum.ltb, PyNum.compare, Z.ltb. simpl. now destruct (a ?= b).
Qed.

Lemma leb_int (a b : Z) : PyNum.leb (NInt a) (NInt b) = (a <=? b).
Proof.
  unfold PyNum.leb, PyNum.compare, Z.leb. simpl. now destruct (a ?= b).
Qed.

Lemma set_set {V : Type} (k : string) (v v' : V) (d : Dict.t V) :
  Dict.set k v (Dict.set k v' d) = Dict.set k v d.
Proof.
  induction d as [| [k0 v0] d IH]; simpl.
  - now rewrite String.eqb_refl.
  - destruct (String.eqb k k0) eqn:E; simpl.
    + now rewrite String.eqb_refl.
    + now rewrite E, IH.
Qed.

Lemma set_same {V : Type} (k : string) (v : V) (d : Dict.t V) :
  Dict.get k d = Some v -> Dict.set k v d = d.
Proof.
  induction d as [| [k0 v0] d IH]; simpl; [discriminate |].
  destruct (String.eqb k k0) eqn:E.
  - apply String.eqb_eq in E. subst k0. now intros [= ->].
  - intros H. now rewrite IH.
Qed.

Lemma del_absent {V : Type} (k : string) (d : Dict.t V) :
  Dict.get k d = None -> Dict.del k d = d.
Proof.
  unfold Dict.del.
  induction d as [| [k0 v0] d IH]; simpl; trivial.
  destruct (String.eqb k k0); [discriminate |].
  intros H. simpl. now rewrite IH.
Qed.

(** *** Rejected arguments *)



(** *** What a successful [add_item] does *)

Lemma add_item_returns
      (w : world) (item qty : pyval) (logs res : option (list log_record)) :
  eval (add_item item qty logs) w = Return res ->
  exists name q r,
    as_name item = Some name /\ as_num qty = Some q /\
    PyNum.ltb q PyNum.zero = false /\
    PyNum.add (quantity name w) q = Some r /\
    add_item item qty logs w =
    match logs with
    | None =>
        (Return None,
         with_log (LogAdded q name)
                  (with_stock (Dict.set name r (stock_data w)) w))
    | Some l =>
        (Return (Some (l ++ [LogAdded q name])%list),
         with_stock (Dict.set name r (stock_data w)) w)
    end.
Proof.
  unfold eval.
  destruct (as_name item) as [name |] eqn:Hn.
  2: { unfold add_item. rewrite Hn. discriminate. }
  destruct (as_num qty) as [q |] eqn:Hq.
  2: { unfold add_item. rewrite Hn, Hq. discriminate. }
  destruct (PyNum.ltb q PyNum.zero) eqn:Hneg.
  { rewrite (add_item_negative item qty name q Hn Hq logs w Hneg). discriminate. }
  destruct (PyNum.add (quantity name w) q) as [r |] eqn:Hr.
  - intros _. exists name, q, r. repeat split; trivial.
    exact (add_item_ok item qty name q Hn Hq logs w r Hneg Hr).
  - rewrite (add_item_overflow item qty name q Hn Hq logs w Hneg Hr). discriminate.
Qed.

(** X3: a call of [add_item] that returns writes one entry, naming the
    quantity and the item, to exactly one place. Given a list [logs], the
    entry is appended to that list and the logging stream is untouched;
    given [None], the entry goes to the logging stream. The data files
    are untouched either way. *)
Theorem add_item_logs_once
        (w : world) (item qty : pyval) (logs res : option (list log_record)) :
  eval (add_item item qty logs) w = Return res ->
  let w' := exec (add_item item qty logs) w in
  exists name q,
    as_name item = Some name /\ as_num qty = Some q /\
    files w' = files w /\
    match logs with
    | Some l =>
        res = Some (l ++ [LogAdded q name])%list /\ logging w' = logging w
    | None =>
        res = None /\ logging w' = (logging w ++ [LogAdded q name])%list
    end.
Proof.
  intros H w'. pose proof H as H'.
  apply add_item_returns in H' as [name [q [r [Hn [Hq [_ [_ R]]]]]]].
  exists name, q. subst w'. unfold eval, exec in *. rewrite R in *.
  destruct logs as [l |]; simpl in *; repeat split; trivial; congruence.
Qed.

Lemma add_item_logs_once_witness :
  exists name q,
    as_name (VStr "apple") = Some name /\ as_num (VNum (NInt 3)) = Some q /\
    files (exec (add_item (VStr "apple") (VNum (NInt 3)) (Some [])) world_fruit)
    = files world_fruit /\
    Some [LogAdded (NInt 3) "apple"] = Some ([] ++ [LogAdded q name])%list /\
    logging (exec (add_item (VStr "apple") (VNum (NInt 3)) (Some [])) world_fruit)
    = logging world_fruit.
Proof.
  apply (add_item_logs_once world_fruit (VStr "apple") (VNum (NInt 3)) (Some [])
                            (Some [LogAdded (NInt 3) "apple"])).
  reflexivity.
Defined.

(** X4: a call of [add_item] that returns keeps the order of the
    mapping. When the item was a key, the keys are the same, in the same
    order; when it was not, the item is the new last key. No other key
    appears or disappears. *)
Theorem add_item_keeps_order
        (w : world) (item qty : pyval) (logs res : option (list log_record)) :
  eval (add_item item qty logs) w = Return res ->
  let w' := exec (add_item item qty logs) w in
  exists name,
    as_name item = Some name /\
    Dict.keys (stock_data w') =
    if Dict.mem name (stock_data w)
    then Dict.keys (stock_data w)
    else (Dict.keys (stock_data w) ++ [name])%list.
Proof.
  intros H w'.
  apply add_item_returns in H as [name [q [r [Hn [Hq [_ [_ R]]]]]]].
  exists name. split; trivial.
  assert (S : stock_data w' = Dict.set name r (stock_data w)).
  { subst w'. unfold exec. rewrite R. now destruct logs. }
  rewrite S. unfold Dict.mem.
  destruct (Dict.get name (stock_data w)) as [v |] eqn:G.
  - apply DictFacts.keys_set_present. congruence.
  - rewrite DictFacts.set_absent by exact G.
    unfold Dict.keys. now rewrite map_app.
Qed.

Lemma add_item_keeps_order_witness :
  exists name,
    as_name (VStr "apple") = Some name /\
    Dict.keys (stock_data (exec (add_item (VStr "apple") (VNum (NInt 3)) None) world_fruit))
    = if Dict.mem name (stock_data world_fruit)
      then Dict.keys (stock_data world_fruit)
      else (Dict.keys (stock_data world_fruit) ++ [name])%list.
Proof.
  apply (add_item_keeps_order world_fruit (VStr "apple") (VNum (NInt 3)) None None).
  reflexivity.
Defined.

(** *** Integer stock: adding twice, adding nothing, adding and removing *)

Lemma add_int_operand (v : num) (s a : Z) :
  PyNum.operand_of v = OInt s -> PyNum.add v (NInt a) = Some (NInt (s + a)).
Proof.
  intros H. unfold PyNum.add, PyNum.arith. now rewrite H.
Qed.

Lemma add_item_int_stock
      (w : world) (item : pyval) (name : string) (s a : Z)
      (logs : option (list log_record)) :
  as_name item = Some name -> 0 <= a ->
  PyNum.operand_of (quantity name w) = OInt s ->
  stock_data (exec (add_item item (VNum (NInt a)) logs) w)
  = Dict.set name (NInt (s + a)) (stock_data w).
Proof.
  intros Hn Ha Hs.
  assert (Hneg : PyNum.ltb (NInt a) PyNum.zero = false).
  { unfold PyNum.zero. rewrite ltb_int. now apply Z.ltb_ge. }
  unfold exec.
  rewrite (add_item_ok item (VNum (NInt a)) name (NInt a) Hn eq_refl logs w
                       (NInt (s + a)) Hneg (add_int_operand _ s a Hs)).
  now destruct logs.
Qed.

(** X5: with an integer (or no) quantity in stock, two calls
    [add_item(item, a)] and [add_item(item, b)] with integers
    [a, b >= 0] leave the same mapping as the one call
    [add_item(item, a + b)]: the entry of the item holds the old
    quantity plus [a + b]. *)
Theorem add_item_twice_accumulates
        (w : world) (item : pyval) (name : string) (s a b : Z)
        (logs1 logs2 logs3 : option (list log_record)) :
  as_name item = Some name ->
  0 <= a -> 0 <= b ->
  PyNum.operand_of (quantity name w) = OInt s ->
  let twice := exec (add_item item (VNum (NInt b)) logs2)
                    (exec (add_item item (VNum (NInt a)) logs1) w) in
  let once := exec (add_item item (VNum (NInt (a + b))) logs3) w in
  stock_data twice = stock_data once /\
  Dict.get name (stock_data twice) = Some (NInt (s + (a + b))).
Proof.
  intros Hn Ha Hb Hs twice once.
  assert (S1 : stock_data (exec (add_item item (VNum (NInt a)) logs1) w)
               = Dict.set name (NInt (s + a)) (stock_data w))
    by now apply add_item_int_stock.
  assert (Q : PyNum.operand_of
                (quantity name (exec (add_item item (VNum (NInt a)) logs1) w))
              = OInt (s + a)).
  { unfold quantity. now rewrite S1, DictFacts.get_set_same. }
  assert (S2 : stock_data twice = Dict.set name (NInt (s + (a + b))) (stock_data w)).
  { subst twice. rewrite (add_item_int_stock _ item name (s + a) b logs2 Hn Hb Q).
    rewrite S1, set_set. now rewrite Z.add_assoc. }
  split.
  - rewrite S2. subst once. symmetry. apply add_item_int_stock; trivial. lia.
  - rewrite S2. apply DictFacts.get_set_same.
Qed.

Lemma add_item_twice_accumulates_witness :
  stock_data (exec (add_item (VStr "apple") (VNum (NInt 2)) None)
                   (exec (add_item (VStr "apple") (VNum (NInt 1)) None) world_fruit))
  = stock_data (exec (add_item (VStr "apple") (VNum (NInt (1 + 2))) None) world_fruit) /\
  Dict.get "apple"
    (stock_data (exec (add_item (VStr "apple") (VNum (NInt 2)) None)
                      (exec (add_item (VStr "apple") (VNum (NInt 1)) None) world_fruit)))
  = Some (NInt (7 + (1 + 2))).
Proof.
  apply (add_item_twice_accumulates world_fruit (VStr "apple") "apple" 7 1 2
                                    None None None);
    [reflexivity | lia | lia | reflexivity].
Defined.

(** X6: [add_item(item, 0)] for an item held with an [int] quantity
    returns and leaves the mapping exactly as it was. (For an absent
    item it creates the entry [item -> 0].) *)
Theorem add_item_zero_keeps_int_stock
        (w : world) (item : pyval) (name : string) (s : Z)
        (logs : option (list log_record)) :
  as_name item = Some name ->
  Dict.get name (stock_data w) = Some (NInt s) ->
  (exists res, eval (add_item item (VNum (NInt 0)) logs) w = Return res) /\
  stock_data (exec (add_item item (VNum (NInt 0)) logs) w) = stock_data w.
Proof.
  intros Hn Hg.
  assert (Q : PyNum.operand_of (quantity name w) = OInt s).
  { unfold quantity. now rewrite Hg. }
  split.
  - unfold eval.
    rewrite (add_item_ok item (VNum (NInt 0)) name (NInt 0) Hn eq_refl logs w
                         (NInt (s + 0)) eq_refl (add_int_operand _ s 0 Q)).
    destruct logs; simpl; eauto.
  - rewrite (add_item_int_stock w item name s 0 logs Hn (Z.le_refl 0) Q).
    rewrite Z.add_0_r. now apply set_same.
Qed.

Lemma add_item_zero_keeps_int_stock_witness :
  (exists res, eval (add_item (VStr "banana") (VNum (NInt 0)) None) world_fruit
               = Return res) /\
  stock_data (exec (add_item (VStr "banana") (VNum (NInt 0)) None) world_fruit)
  = stock_data world_fruit.
Proof.
  apply (add_item_zero_keeps_int_stock world_fruit (VStr "banana") "banana" 2 None);
    reflexivity.
Defined.

(** X7: for an integer [k > 0], [add_item(item, k)] followed by
    [remove_item(item, k)] returns twice and gives back the mapping as
    it was, entry for entry and in the same order, when the item was
    absent or held with an [int] quantity above zero. When the item was
    held with the quantity 0, the two calls delete its entry instead. *)
Theorem add_then_remove_restores
        (w : world) (item : pyval) (name : string) (k : Z)
        (logs : option (list log_record)) :
  as_name item = Some name ->
  0 < k ->
  let added := exec (add_item item (VNum (NInt k)) logs) w in
  let back := exec (remove_item item (VNum (NInt k))) added in
  match Dict.get name (stock_data w) with
  | None =>
      eval (remove_item item (VNum (NInt k))) added = Return tt /\
      stock_data back = stock_data w
  | Some (NInt s) =>
      0 <= s ->
      eval (remove_item item (VNum (NInt k))) added = Return tt /\
      stock_data back = if s =? 0
                        then Dict.del name (stock_data w)
                        else stock_data w
  | Some _ => True
  end.
Proof.
  intros Hn Hk added back.
  assert (Step : forall s,
             0 <= s ->
             PyNum.operand_of (quantity name w) = OInt s ->
             remove_item item (VNum (NInt k)) added =
             (Return tt,
              with_stock (if s =? 0
                          then Dict.del name (stock_data w)
                          else Dict.set name (NInt s) (stock_data w)) added)).
  { intros s Hs Q.
    assert (S : stock_data added = Dict.set name (NInt (s + k)) (stock_data w)).
    { subst added. apply add_item_int_stock; trivial. lia. }
    assert (Hpos : PyNum.leb (NInt k) PyNum.zero = false).
    { unfold PyNum.zero. rewrite leb_int. apply Z.leb_gt. lia. }
    assert (Hg : Dict.get name (stock_data added) = Some (NInt (s + k))).
    { rewrite S. apply DictFacts.get_set_same. }
    assert (Hs' : PyNum.ltb (NInt (s + k)) (NInt k) = false).
    { rewrite ltb_int. apply Z.ltb_ge. lia. }
    rewrite (remove_item_ok item (VNum (NInt k)) name (NInt k) Hn eq_refl added
                            (NInt (s + k)) (NInt (s + k - k)) Hpos Hg Hs'
                            (sub_int _ _)).
    f_equal. f_equal. unfold PyNum.zero. rewrite leb_int, S, set_set.
    replace (s + k - k) with s by lia.
    destruct (Z.eqb_spec s 0) as [-> | Ne].
    - simpl. apply del_set.
    - destruct (Z.leb_spec s 0); [lia | reflexivity]. }
  destruct (Dict.get name (stock_data w)) as [[b | s | f] |] eqn:G; trivial.
  - intros Hs.
    assert (Q : PyNum.operand_of (quantity name w) = OInt s).
    { unfold quantity. now rewrite G. }
    subst back. unfold eval, exec. rewrite (Step s Hs Q). simpl.
    split; trivial. destruct (s =? 0); trivial. now apply set_same.
  - assert (Q : PyNum.operand_of (quantity name w) = OInt 0).
    { unfold quantity. now rewrite G. }
    subst back. unfold eval, exec. rewrite (Step 0 (Z.le_refl 0) Q). simpl.
    split; trivial. now apply del_absent.
Qed.

Lemma add_then_remove_restores_witness :
  (eval (remove_item (VStr "pear") (VNum (NInt 4)))
        (exec (add_item (VStr "pear") (VNum (NInt 4)) None) world_fruit)
   = Return tt /\
   stock_data (exec (remove_item (VStr "pear") (VNum (NInt 4)))
                    (exec (add_item (VStr "pear") (VNum (NInt 4)) None) world_fruit))
   = stock_data world_fruit) /\
  (0 <= 7 ->
   eval (remove_item (VStr "apple") (VNum (NInt 4)))
        (exec (add_item (VStr "apple") (VNum (NInt 4)) None) world_fruit)
   = Return tt /\
   stock_data (exec (remove_item (VStr "apple") (VNum (NInt 4)))
                    (exec (add_item (VStr "apple") (VNum (NInt 4)) None) world_fruit))
   = stock_data world_fruit).
Proof.
  split.
  - apply (add_then_remove_restores world_fruit (VStr "pear") "pear" 4 None);
      [reflexivity | lia].
  - apply (add_then_remove_restores world_fruit (VStr "apple") "apple" 4 None);
      [reflexivity | lia].
Defined.

(** *** Saving, and loading later *)








(** *** The report *)

Lemma bind_return {A B : Type} (m : M A) (k : A -> M B) (w : world)
      (a : A) (w' : world) :
  m w = (Return a, w') -> bind m k w = k a w'.
Proof.
  intros H. unfold bind. now rewrite H.
Qed.

Lemma report_lines_run (d : Dict.t num) (w : world) :
  fold_right (fun e k => log (LogReportLine (fst e) (snd e)) ;;; k) (ret tt) d w =
  (Return tt,
   mkWorld (stock_data w) (files w) (write_denied w)
           (logging w ++ map (fun e => LogReportLine (fst e) (snd e)) d)).
Proof.
  revert w. induction d as [| e d IH]; intros w; simpl.
  - unfold ret. destruct w; simpl. now rewrite app_nil_r.
  - unfold bind at 1. unfold log at 1. rewrite IH. simpl.
    now rewrite <- app_assoc.
Qed.

(** X11: [print_data] returns and changes neither the inventory nor the
    data files. To the logging stream it appends the header, then the
    placeholder line exactly when the inventory is empty, then one line
    per entry, with its name and quantity, in the order of the mapping:
    one line more than there are entries, or two when there are none. *)
Theorem print_data_reports_every_entry (w : world) :
  let w' := exec print_data w in
  eval print_data w = Return tt /\
  stock_data w' = stock_data w /\
  files w' = files w /\
  logging w' = (logging w ++ report (stock_data w))%list /\
  (forall name q,
      In (LogReportLine name q) (report (stock_data w)) <->
      In (name, q) (stock_data w)) /\
  (In LogReportEmpty (report (stock_data w)) <-> stock_data w = []) /\
  List.length (report (stock_data w))
  = Nat.max 2 (S (List.length (stock_data w))).
Proof.
  assert (R : print_data w =
              (Return tt,
               mkWorld (stock_data w) (files w) (write_denied w)
                       (logging w ++ report (stock_data w)))).
  { unfold print_data.
    rewrite (bind_return (log LogReportHeader) _ w tt (with_log LogReportHeader w))
      by reflexivity.
    rewrite (bind_return get_stock _ _ (stock_data w) (with_log LogReportHeader w))
      by reflexivity.
    unfold report. destruct (stock_data w) as [| e d] eqn:S.
    - rewrite (bind_return (log LogReportEmpty) _ _ tt
                 (with_log LogReportEmpty (with_log LogReportHeader w)))
        by reflexivity.
      rewrite report_lines_run. simpl. rewrite S. now rewrite <- !app_assoc.
    - rewrite (bind_return (ret tt) _ _ tt (with_log LogReportHeader w))
        by reflexivity.
      rewrite report_lines_run. simpl. rewrite S. now rewrite <- !app_assoc. }
  unfold eval, exec. rewrite R. simpl.
  split; [| split; [| split; [| split; [| split; [| split]]]]]; trivial.
  - intros name q. unfold report. simpl. split.
    + intros [H | H]; [discriminate |].
      apply in_app_or in H as [H | H].
      * destruct (stock_data w); simpl in H; [| tauto].
        destruct H as [H | []]. discriminate.
      * apply in_map_iff in H as [[k v] [[= <- <-] H]]. exact H.
    + intros H. right. apply in_or_app. right.
      apply in_map_iff. exists (name, q). auto.
  - unfold report. destruct (stock_data w) as [| e d]; simpl.
    + split; auto.
    + split; [| discriminate]. intros [H | [H | H]]; try discriminate.
      apply in_map_iff in H as [e' [H _]]. discriminate.
  - unfold report. destruct (stock_data w) as [| e d]; simpl; trivial.
    rewrite length_map. destruct (List.length d); reflexivity.
Qed.

(** *** The two queries together *)

Lemma in_low_names (w : world) (t : num) (name : string) :
  Dict.wf (stock_data w) ->
  In name (map fst (filter (fun e => PyNum.ltb (snd e) t) (stock_data w))) <->
  exists q, Dict.get name (stock_data w) = Some q /\ PyNum.ltb q t = true.
Proof.
  intros W. rewrite in_map_iff. split.
  - intros [[k q] [E H]]. simpl in E. subst k.
    apply filter_In in H as [H1 H2]. exists q. split; trivial.
    now apply DictFacts.in_get.
  - intros [q [H1 H2]]. exists (name, q). split; trivial.
    apply filter_In. split; trivial. now apply DictFacts.get_some_in.
Qed.

(** X12: [check_low_items] and [get_qty] agree on the items held. For a
    numeric threshold, a non-empty name is in the list
    [check_low_items(threshold)] returns exactly when it is a key of the
    mapping and [get_qty] returns for it a quantity strictly below the
    threshold. An item that is not held is never listed, although
    [get_qty] returns 0 for it. *)
Theorem low_items_agree_with_get_qty
        (w : world) (threshold : pyval) (t : num) :
  as_num threshold = Some t ->
  Dict.wf (stock_data w) ->
  exists names,
    eval (check_low_items threshold) w = Return names /\
    forall name,
      name <> "" ->
      (In name names <->
       Dict.mem name (stock_data w) = true /\
       exists q, eval (get_qty (VStr name)) w = Return q /\
                 PyNum.ltb q t = true) /\
      (Dict.mem name (stock_data w) = false ->
       ~ In name names /\
       eval (get_qty (VStr name)) w = Return PyNum.zero).
Proof.
  intros Ht W. eexists. split.
  { unfold eval. now rewrite (check_low_items_run threshold t w Ht). }
  intros name Hne.
  assert (Hn : as_name (VStr name) = Some name).
  { destruct name; [congruence | reflexivity]. }
  assert (G : eval (get_qty (VStr name)) w = Return (quantity name w)).
  { unfold eval. now rewrite (get_qty_run (VStr name) name w Hn). }
  rewrite G. rewrite (in_low_names w t name W). unfold Dict.mem, quantity.
  destruct (Dict.get name (stock_data w)) as [v |] eqn:E; split.
  - split.
    + intros [q [[= <-] Hq]]. eauto.
    + intros [_ [q [[= <-] Hq]]]. eauto.
  - discriminate.
  - split.
    + intros [q [H _]]. discriminate.
    + intros [H _]. discriminate.
  - intros _. split; trivial. intros [q [H _]]. discriminate.
Qed.

Lemma low_items_agree_with_get_qty_witness :
  exists names,
    eval (check_low_items (VNum (NInt 5))) world_fruit = Return names /\
    forall name,
      name <> "" ->
      (In name names <->
       Dict.mem name (stock_data world_fruit) = true /\
       exists q, eval (get_qty (VStr name)) world_fruit = Return q /\
                 PyNum.ltb q (NInt 5) = true) /\
      (Dict.mem name (stock_data world_fruit) = false ->
       ~ In name names /\
       eval (get_qty (VStr name)) world_fruit = Return PyNum.zero).
Proof.
  apply (low_items_agree_with_get_qty world_fruit (VNum (NInt 5)) (NInt 5)).
  - reflexivity.
  - unfold Dict.wf. simpl. repeat constructor; simpl; intuition discriminate.
Defined.
